(** * Visor NO2 / T21: a model of [streamlit_app_optimized.py]

    The dashboard is one Streamlit script.  Every run of the script reads
    the widget state, loads the data through a memoised loader and emits
    a sequence of page elements.  This development embeds

    - the raster operations the overlay view performs with Pillow
      ([Image.new], [copy], [putalpha], [Image.alpha_composite]);
    - the loader [load_data] with its [st.cache_data] memo table;
    - the script itself, as a program in a small state monad whose state
      holds the memo table, the object store of the run and the elements
      emitted so far, and whose results distinguish normal completion,
      [st.stop()] and an uncaught Python exception;
    - the library routines the script calls on floating-point data
      ([Image.resize], [Series.corr], [np.polyfit]) as parameters of the
      script, with a binary64 evaluation of each for concrete runs.

    Python floats are IEEE binary64 values ([PrimFloat.float]). *)

From stdpp Require Import base option list sorting gmap strings.
From Stdlib Require Import Ascii ZArith Floats Lia.

(** ** Numbers *)

(** Python's [int(x)] on a float: truncation toward zero; [None] stands
    for the [ValueError] / [OverflowError] raised on NaN and infinities. *)
Definition int_of_float (x : float) : option Z :=
  match Prim2SF x with
  | S754_zero _ => Some 0%Z
  | S754_finite s m e =>
      let mag := if (0 <=? e)%Z then Z.shiftl (Z.pos m) e
                 else Z.shiftr (Z.pos m) (- e) in
      Some (if s then (- mag)%Z else mag)
  | _ => None
  end.

(** ** Pillow rasters *)

Module PIL.
Local Open Scope Z_scope.

(** An RGBA pixel: four 8-bit bands. *)
Record Pixel := RGBA { red : Z; green : Z; blue : Z; alpha : Z }.

(** An image in mode RGBA: its size and its pixels, row by row. *)
Record Image := mkImage { width : nat; height : nat; data : list Pixel }.

Definition size (im : Image) : nat * nat := (width im, height im).

#[global] Instance Pixel_eq_dec : EqDecision Pixel.
Proof. solve_decision. Defined.

#[global] Instance Image_eq_dec : EqDecision Image.
Proof. solve_decision. Defined.

Definition valid_channel (c : Z) : bool := (0 <=? c) && (c <? 256).

Definition valid_pixel (p : Pixel) : bool :=
  valid_channel (red p) && valid_channel (green p) &&
  valid_channel (blue p) && valid_channel (alpha p).

(** What every raster delivered by [Image.open(..).convert('RGBA')]
    satisfies: one pixel per position, every band a byte. *)
Definition valid_image (im : Image) : bool :=
  (length (data im) =? width im * height im)%nat &&
  forallb valid_pixel (data im).

Definition opaque (im : Image) : bool :=
  forallb (fun p => alpha p =? 255) (data im).

Definition white : Pixel := RGBA 255 255 255 255.

#[global] Instance Pixel_inhabited : Inhabited Pixel := populate white.

(** [Image.new('RGBA', size, color)] *)
Definition new (sz : nat * nat) (color : Pixel) : Image :=
  mkImage sz.1 sz.2 (replicate (sz.1 * sz.2)%nat color).

(** [im.copy()]: a new image object holding the same raster. *)
Definition copy (im : Image) : Image :=
  mkImage (width im) (height im) (data im).

(** The C macro [CLIP8] of libImaging. *)
Definition CLIP8 (v : Z) : Z :=
  if v <=? 0 then 0 else if v <? 256 then v else 255.

(** [im.putalpha(value)] with an integer: [ImagingFillBand] stores the
    clipped value in band 3 of every pixel. *)
Definition putalpha (im : Image) (value : Z) : Image :=
  mkImage (width im) (height im)
    ((fun p => RGBA (red p) (green p) (blue p) (CLIP8 value)) <$> data im).

Definition UINT8 (x : Z) : Z := x mod 2 ^ 8.
Definition UINT32 (x : Z) : Z := x mod 2 ^ 32.

Definition PRECISION_BITS : Z := 7.
Definition SHIFTFORDIV255 (a : Z) : Z := Z.shiftr (Z.shiftr a 8 + a) 8.

(** One pixel of [ImagingAlphaComposite]: [src] over [dst]. *)
Definition composite_pixel (dst src : Pixel) : Pixel :=
  if alpha src =? 0 then dst
  else
    let blend := UINT32 (alpha dst * (255 - alpha src)) in
    let outa255 := UINT32 (alpha src * 255 + blend) in
    let coef1 :=
      UINT32 (alpha src * 255 * 255 * Z.shiftl 1 PRECISION_BITS / outa255) in
    let coef2 := UINT32 (255 * Z.shiftl 1 PRECISION_BITS - coef1) in
    let tmpr := UINT32 (red src * coef1 + red dst * coef2) in
    let tmpg := UINT32 (green src * coef1 + green dst * coef2) in
    let tmpb := UINT32 (blue src * coef1 + blue dst * coef2) in
    let half := Z.shiftl 128 PRECISION_BITS in
    RGBA
      (UINT8 (Z.shiftr (SHIFTFORDIV255 (UINT32 (tmpr + half))) PRECISION_BITS))
      (UINT8 (Z.shiftr (SHIFTFORDIV255 (UINT32 (tmpg + half))) PRECISION_BITS))
      (UINT8 (Z.shiftr (SHIFTFORDIV255 (UINT32 (tmpb + half))) PRECISION_BITS))
      (UINT8 (SHIFTFORDIV255 (UINT32 (outa255 + 128)))).

(** The band [composite_pixel] computes from a source band [c] when the
    source alpha is 255: [coef1] is [255 * 128] and [coef2] is 0. *)
Definition opaque_band (c : Z) : Z :=
  UINT8 (Z.shiftr (SHIFTFORDIV255 (UINT32 (UINT32 (c * 32640 + 0) + 16384)))
           PRECISION_BITS).

(** [Image.alpha_composite(im1, im2)]: [im2] over [im1]; images of
    different sizes raise [ValueError] ([None]). *)
Definition alpha_composite (im1 im2 : Image) : option Image :=
  if bool_decide (size im1 = size im2)
  then Some (mkImage (width im1) (height im1)
               (zip_with composite_pixel (data im1) (data im2)))
  else None.

End PIL.

(** ** The overlay view (script lines 304-331) *)

Inductive BlendMode := Normal | Multiplicar | Pantalla.

Section Overlay.
Import PIL.

(** [img.resize(size, Image.Resampling.LANCZOS)] is kept abstract: its
    pixel values come from Pillow's floating-point convolution. *)
Variable resize : Image -> nat * nat -> Image.

(** [int(255 * opacity)] *)
Definition alpha_of_opacity (opacity : float) : option Z :=
  int_of_float (255 * opacity)%float.

(** "Asegurar mismo tamano" *)
Definition same_size (img_no2 img_t21 : Image) : Image :=
  if bool_decide (size img_no2 ≠ size img_t21)
  then resize img_t21 (size img_no2)
  else img_t21.

Definition overlay (img_no2 img_t21 : Image) (opacity_no2 opacity_t21 : float)
    (blend_mode : BlendMode) : option Image :=
  let img_t21 := same_size img_no2 img_t21 in
  let base := new (size img_no2) white in
  a_no2 ← alpha_of_opacity opacity_no2;
  let img_no2_alpha := putalpha (copy img_no2) a_no2 in
  a_t21 ← alpha_of_opacity opacity_t21;
  let img_t21_alpha := putalpha (copy img_t21) a_t21 in
  result ← alpha_composite base img_no2_alpha;
  alpha_composite result img_t21_alpha.

(** One pixel of the overlay: the T21 pixel [q] with alpha [a_t21] over
    the NO2 pixel [p] with alpha [a_no2] over white. *)
Definition overlay_pixel (a_no2 a_t21 : Z) (p q : Pixel) : Pixel :=
  composite_pixel
    (composite_pixel white (RGBA (red p) (green p) (blue p) (CLIP8 a_no2)))
    (RGBA (red q) (green q) (blue q) (CLIP8 a_t21)).

End Overlay.

(** ** Tables *)

Record Timestamp := mkTimestamp { year : nat; month : nat; day : nat }.

Definition digit (n : nat) : string :=
  String (Ascii.ascii_of_nat (48 + n mod 10)) EmptyString.

(** [t.strftime('%Y-%m')] *)
Definition strftime_Ym (t : Timestamp) : string :=
  digit (year t / 1000) +:+ digit (year t / 100) +:+ digit (year t / 10)
  +:+ digit (year t) +:+ "-" +:+ digit (month t / 10) +:+ digit (month t).

(** One observation of the CSV, as [pd.read_csv] followed by
    [pd.to_datetime] on the column [Fecha] delivers it. *)
Record Row := mkRow { Fecha : Timestamp; NO2 : float; T21 : float }.

(** Values that pandas, numpy and plotly compute from whole columns are
    carried by the page as the computation they denote. *)
Inductive Agg :=
| Mean (col : list float)
| Min (col : list float)
| Max (col : list float)
| MonthOfMax (dates : list Timestamp) (col : list float).

(** An f-string: literal pieces and formatted numbers. *)
Inductive Piece :=
| Lit (s : string)
| Num (spec : string) (x : float)
| Stat (spec : string) (a : Agg).

Definition Text := list Piece.

(** A pandas column with its dtype. *)
Inductive Column :=
| DatetimeCol (ts : list Timestamp)
| FloatCol (xs : list float)
| ObjectCol (ss : list Text).

(** A [DataFrame] object with the columns of the CSV. *)
Record Frame := mkFrame { col_Fecha : Column; col_NO2 : Column; col_T21 : Column }.

Definition frame_of_rows (rows : list Row) : Frame :=
  mkFrame (DatetimeCol (Fecha <$> rows)) (FloatCol (NO2 <$> rows))
    (FloatCol (T21 <$> rows)).

Definition rows_of (f : Frame) : option (list Row) :=
  match col_Fecha f, col_NO2 f, col_T21 f with
  | DatetimeCol ts, FloatCol xs, FloatCol ys =>
      Some (zip_with (fun t xy => mkRow t xy.1 xy.2) ts (zip xs ys))
  | _, _, _ => None
  end.

Inductive Exn :=
| FileNotFoundError | IsADirectoryError | ParserError | JSONDecodeError
| UnidentifiedImageError | IndexError | TypeError | ValueError
| AttributeError | LinAlgError.

(** [col.dt.strftime('%Y-%m')] *)
Definition dt_strftime_Ym (c : Column) : Exn + Column :=
  match c with
  | DatetimeCol ts => inr (ObjectCol ((fun t => [Lit (strftime_Ym t)]) <$> ts))
  | _ => inl AttributeError
  end.

(** [col.apply(lambda x: f"{x:spec}")] *)
Definition apply_format (spec : string) (c : Column) : Exn + Column :=
  match c with
  | FloatCol xs => inr (ObjectCol ((fun x => [Num spec x]) <$> xs))
  | DatetimeCol _ => inl TypeError
  | ObjectCol _ => inl ValueError
  end.

(** ** Files *)

Definition Metadata := list (string * string).

Inductive File :=
| CsvFile (rows : list Row)
| JsonFile (meta : Metadata)
| PngFile (img : PIL.Image)
| Directory.

(** Paths are relative to the working directory of the server. *)
Definition FileSystem := gmap string File.

Definition DATA_DIR : string := ".".

(** [os.path.join] *)
Definition path_join (a b : string) : string := a +:+ "/" +:+ b.

(** The file a path names: a leading [./] is dropped. *)
Definition normpath (p : string) : string :=
  match p with
  | String "."%char (String "/"%char rest) => rest
  | _ => p
  end.

Definition csv_path : string := path_join DATA_DIR "datos_no2_t21.csv".
Definition metadata_path : string := path_join DATA_DIR "metadata.json".

(** [Path(DATA_DIR) / 'monthly_images'] *)
Definition image_dir : string := normpath (path_join DATA_DIR "monthly_images").

(** [image_dir / f"{var}_{selected_month}.png"] *)
Definition image_name (var selected_month : string) : string :=
  var +:+ "_" +:+ selected_month +:+ ".png".
Definition image_path (var selected_month : string) : string :=
  path_join image_dir (image_name var selected_month).

Definition exists_ (fs : FileSystem) (p : string) : bool :=
  bool_decide (is_Some (fs !! normpath p)).

Definition read_csv (fs : FileSystem) (p : string) : Exn + list Row :=
  match fs !! normpath p with
  | None => inl FileNotFoundError
  | Some (CsvFile rows) => inr rows
  | Some Directory => inl IsADirectoryError
  | Some _ => inl ParserError
  end.

Definition json_load (fs : FileSystem) (p : string) : Exn + Metadata :=
  match fs !! normpath p with
  | None => inl FileNotFoundError
  | Some (JsonFile meta) => inr meta
  | Some Directory => inl IsADirectoryError
  | Some _ => inl JSONDecodeError
  end.

Definition Image_open (fs : FileSystem) (p : string) : Exn + PIL.Image :=
  match fs !! normpath p with
  | None => inl FileNotFoundError
  | Some (PngFile img) => inr img
  | Some Directory => inl IsADirectoryError
  | Some _ => inl UnidentifiedImageError
  end.

(** ** The loader (script lines 151-176) *)

(** What [load_data] returns: [(df, metadata, error)]. *)
Definition Loaded : Type := option (list Row) * option Metadata * option string.

Definition error_msg : string :=
  "Archivos no encontrados en: " +:+ DATA_DIR +:+
  " Debes ejecutar primero el script de descarga: python 01_download_data.py" +:+
  " Archivos esperados: - " +:+ csv_path +:+ " - " +:+ metadata_path +:+
  " - " +:+ path_join DATA_DIR "monthly_images" +:+ "/".

(** The body of [load_data]: only [FileNotFoundError] is caught. *)
Definition load_data (fs : FileSystem) : Exn + Loaded :=
  let try :=
    match read_csv fs csv_path with
    | inl e => inl e
    | inr df =>
        match json_load fs metadata_path with
        | inl e => inl e
        | inr metadata => inr (Some df, Some metadata, None)
        end
    end in
  match try with
  | inl FileNotFoundError => inr (None, None, Some error_msg)
  | r => r
  end.

(** ** The page *)

Inductive Theme := Claro | Oscuro.
Inductive ViewMode := LadoALado | Superposicion | Individual.
Inductive Layer := CapaNO2 | CapaT21.

(** The widget state a run of the script finds. *)
Record Inputs := mkInputs {
  theme_selector : Theme;
  month_selector : option string;
  view_mode : ViewMode;
  opacity_no2 : float;
  opacity_t21 : float;
  blend_mode : BlendMode;
  layer_choice : Layer }.

(** Plotly figures: the traces with the data they are drawn from. *)
Inductive Series :=
| Dates (ts : list Timestamp)
| Floats (xs : list float)
| RangeLen (n : nat)
| Linspace (lo hi : Agg) (n : nat)
| Poly1d (z : list float) (at_x : Series).

Record Trace := mkTrace { trace_name : string; trace_x : Series; trace_y : Series }.

Record Figure := mkFigure {
  traces : list Trace; template : string; font_color : string }.

Inductive Element :=
| Markdown (body : Text)
| Subheader (body : Text)
| ErrorBox (body : Text)
| WarningBox (body : Text)
| InfoBox (body : Text)
| CodeBlock (body : string)
| Radio (label : string) (options : list string)
| Selectbox (label : string) (options : list string) (index : Z)
| Slider (label : string) (min_value max_value value step : float)
| Metric (label : string) (value : Text) (delta : option Text)
| Picture (img : PIL.Image)
| PlotlyChart (fig : Figure)
| Table (f : Frame).

(** Where an element is placed: the [with] blocks around the call. *)
Inductive Container := Tab (i : nat) | Col (i : nat) | Expander.
Definition Place := list Container.

(** Python objects of a run. *)
Inductive Obj := OFrame (f : Frame) | ODict (m : Metadata).

Record State := mkState {
  cache : option Loaded;          (* the memo table of [st.cache_data] *)
  heap : gmap nat Obj;            (* the objects of this run *)
  next_id : nat;
  page : list (Place * Element) }.

Inductive Res (A : Type) := Ok (a : A) | Stop | Raise (e : Exn).
Arguments Ok {A} a.
Arguments Stop {A}.
Arguments Raise {A} e.

Definition M (A : Type) : Type := State -> Res A * State.

#[global] Instance M_ret : MRet M := fun A a s => (Ok a, s).

#[global] Instance M_bind : MBind M := fun A B k m s =>
  match m s with
  | (Ok a, s') => k a s'
  | (Stop, s') => (Stop, s')
  | (Raise e, s') => (Raise e, s')
  end.

Definition emit (pl : Place) (e : Element) : M unit := fun s =>
  (Ok (), mkState (cache s) (heap s) (next_id s) (page s ++ [(pl, e)])).

(** [st.stop()] *)
Definition st_stop {A} : M A := fun s => (Stop, s).

Definition raise {A} (e : Exn) : M A := fun s => (Raise e, s).

Definition lift {A} (r : Exn + A) : M A :=
  match r with inl e => raise e | inr a => mret a end.

Definition lift_or {A} (e : Exn) (r : option A) : M A :=
  match r with None => raise e | Some a => mret a end.

Definition new_object (o : Obj) : M nat := fun s =>
  (Ok (next_id s),
   mkState (cache s) (<[next_id s := o]> (heap s)) (S (next_id s)) (page s)).

Definition new_object_opt (o : option Obj) : M (option nat) :=
  match o with
  | None => mret None
  | Some o => l ← new_object o; mret (Some l)
  end.

Definition get_frame (l : nat) : M Frame := fun s =>
  match heap s !! l with
  | Some (OFrame f) => (Ok f, s)
  | _ => (Raise TypeError, s)
  end.

Definition set_frame (l : nat) (f : Frame) : M unit := fun s =>
  (Ok (), mkState (cache s) (<[l := OFrame f]> (heap s)) (next_id s) (page s)).

(** Reading the loaded table through the variable [df]. *)
Definition read_df (df : option nat) : M (list Row) :=
  match df with
  | None => raise TypeError
  | Some l => f ← get_frame l; lift_or TypeError (rows_of f)
  end.

(** [df.copy()] *)
Definition frame_copy (df : option nat) : M nat :=
  match df with
  | None => raise AttributeError
  | Some l => f ← get_frame l; new_object (OFrame f)
  end.

(** [@st.cache_data]: the body runs only when the memo table is empty;
    a value it returns is stored, an exception it raises is not. *)
Definition st_cache_data (body : Exn + Loaded) : M Loaded := fun s =>
  match cache s with
  | Some v => (Ok v, s)
  | None =>
      match body with
      | inr v => (Ok v, mkState (Some v) (heap s) (next_id s) (page s))
      | inl e => (Raise e, s)
      end
  end.

(** Python truthiness of [error]. *)
Definition truthy (error : option string) : bool :=
  match error with
  | Some s => bool_decide (s ≠ EmptyString)
  | None => false
  end.

(** *** Month selector and metric panel (script lines 197-235) *)

(** [Series.unique()]: first occurrences, in order. *)
Fixpoint unique (l : list string) : list string :=
  match l with
  | [] => []
  | x :: l => x :: filter (fun y => y ≠ x) (unique l)
  end.

Definition str_le (a b : string) : Prop := String.leb a b = true.

#[global] Instance str_le_dec : RelDecision str_le.
Proof. intros a b. unfold str_le. solve_decision. Defined.

Definition sorted (l : list string) : list string := merge_sort str_le l.

Definition available_months (rows : list Row) : list string :=
  sorted (unique ((fun r => strftime_Ym (Fecha r)) <$> rows)).

(** The value [st.selectbox(options=.., index=..)] returns. *)
Definition st_selectbox (options : list string) (index : Z)
    (state : option string) : option string :=
  let default := if (0 <=? index)%Z then options !! Z.to_nat index else None in
  match state with
  | Some v => if bool_decide (v ∈ options) then Some v else default
  | None => default
  end.

(** [df[df['Fecha'].dt.strftime('%Y-%m') == selected_month]]: the rows
    that match, each with its index label. *)
Definition month_is (selected_month : option string) (ir : nat * Row) : Prop :=
  Some (strftime_Ym (Fecha ir.2)) = selected_month.

#[global] Instance month_is_dec m ir : Decision (month_is m ir).
Proof. unfold month_is. solve_decision. Defined.

Definition boolean_mask (rows : list Row) (selected_month : option string)
    : list (nat * Row) :=
  filter (month_is selected_month) (imap pair rows).

(** [.iloc[0]] and [.index[0]] of a selection, [df.iloc[i]] of the table. *)
Definition iloc0 (sel : list (nat * Row)) : Exn + Row :=
  match sel with [] => inl IndexError | ir :: _ => inr ir.2 end.
Definition index0 (sel : list (nat * Row)) : Exn + nat :=
  match sel with [] => inl IndexError | ir :: _ => inr ir.1 end.
Definition iloc (rows : list Row) (i : nat) : Exn + Row :=
  match rows !! i with None => inl IndexError | Some r => inr r end.

Definition fmt_no2 (x : float) : Text := [Num ".2e" x; Lit " mol/m2"].
Definition fmt_t21 (x : float) : Text := [Num ".1f" x; Lit " K"].

Definition delta_no2 (current prev_no2 : float) : float :=
  ((current - prev_no2) / prev_no2 * 100)%float.
Definition delta_t21 (current prev_t21 : float) : float :=
  (current - prev_t21)%float.

Definition delta_metrics (d_no2 d_t21 : float) : list (Place * Element) :=
  [([Col 4], Metric "Delta NO2" [Num "+.1f" d_no2; Lit "%"]
               (Some [Num "+.1f" d_no2; Lit "%"]));
   ([Col 4], Metric "Delta T21" [Num "+.1f" d_t21; Lit " K"]
               (Some [Num "+.1f" d_t21; Lit " K"]))].

Definition emit_all (es : list (Place * Element)) : M unit :=
  foldr (fun pe k => emit pe.1 pe.2 ;; k) (mret ()) es.

Definition controls (df : option nat) (inp : Inputs) : M string :=
  rows ← read_df df;
  let months := available_months rows in
  let index := (Z.of_nat (length months) - 1)%Z in
  emit [Col 1] (Selectbox "Selecciona el mes:" months index) ;;
  let selected_month := st_selectbox months index (month_selector inp) in
  selected_data ← lift (iloc0 (boolean_mask rows selected_month));
  emit [Col 2] (Metric "NO2 (Dioxido de Nitrogeno)"
                  (fmt_no2 (NO2 selected_data)) None) ;;
  emit [Col 3] (Metric "T21 (Temperatura de Brillo)"
                  (fmt_t21 (T21 selected_data)) None) ;;
  (if bool_decide (1 < length rows) then
     current_idx ← lift (index0 (boolean_mask rows selected_month));
     if bool_decide (0 < current_idx) then
       prev ← lift (iloc rows (current_idx - 1));
       emit_all (delta_metrics (delta_no2 (NO2 selected_data) (NO2 prev))
                               (delta_t21 (T21 selected_data) (T21 prev)))
     else mret ()
   else mret ()) ;;
  emit [Col 4]
    (InfoBox [Lit "Usa las pestanas superiores para explorar diferentes visualizaciones"]) ;;
  mret (default "None" selected_month).

(** *** Correlation strength (script lines 603-617) *)

#[local] Set Warnings "-inexact-float".

Record Interpretation := mkInterpretation {
  interpretation : string; color : string; emoji : string; desc : string }.

Definition weak : Interpretation :=
  mkInterpretation "Correlacion Debil" "#FFC107" ":bar_chart:"
    "La relacion entre las variables es minima o inexistente.".
Definition moderate : Interpretation :=
  mkInterpretation "Correlacion Moderada" "#FF9800" ":chart_increasing:"
    "Existe una relacion parcial entre las variables.".
Definition strong : Interpretation :=
  mkInterpretation "Correlacion Fuerte" "#F44336" ":fire:"
    "Las variables estan fuertemente relacionadas.".

Definition interpret (correlation : float) : Interpretation :=
  if (abs correlation <? 0.3)%float then weak
  else if (abs correlation <? 0.7)%float then moderate
  else strong.

(** *** The script *)

Definition plotly_template (theme : Theme) : string :=
  match theme with Oscuro => "plotly_dark" | Claro => "plotly_white" end.

Definition font (theme : Theme) : string :=
  match theme with Oscuro => "#f0f0f0" | Claro => "#222" end.

(** Lines 36-146: theme selector and style sheet. *)
Definition styles (inp : Inputs) : M Theme :=
  let theme := theme_selector inp in
  emit [] (Radio "Tema:" ["Claro"; "Oscuro"]) ;;
  match theme with
  | Oscuro => emit [] (Markdown [Lit "<style> tema oscuro </style>"])
  | Claro => emit [] (Markdown [Lit "<style> tema claro </style>"])
  end ;;
  mret theme.

(** Lines 183-187. *)
Definition error_page (error : string) : list (Place * Element) :=
  [([], ErrorBox [Lit error]);
   ([], InfoBox [Lit "Asegurate de haber autenticado Earth Engine antes de ejecutar el script"]);
   ([], CodeBlock "import ee; ee.Authenticate(); ee.Initialize(project='tu-proyecto')")].

(** Lines 192-193. *)
Definition header : list (Place * Element) :=
  [([], Markdown [Lit "<p class=main-title>NO2 y T21 (Incendios) en la Peninsula de Yucatan</p>"]);
   ([], Markdown [Lit "<p class=subtitle>Analisis de datos satelitales mensuales - 2024</p>"])].

(** Lines 370-400: colour legends and usage tips. *)
Definition legends : list (Place * Element) :=
  [([Tab 1; Expander; Col 1], Markdown [Lit "**NO2 (Dioxido de Nitrogeno)** leyenda de colores"]);
   ([Tab 1; Expander; Col 2], Markdown [Lit "**T21 (Temperatura de Brillo)** leyenda de colores"])].

Definition tips : Place * Element :=
  ([Tab 1], InfoBox [Lit "**Tips de uso**: lado a lado, superposicion con control, vista individual"]).

(** [range(n)] as numpy converts it: the floats 0.0, 1.0, ..., n - 1. *)
Definition arange (n : nat) : list float :=
  (fun i => PrimFloat.of_uint63 (Uint63.of_Z (Z.of_nat i))) <$> seq 0 n.

(** Lines 409-487: the two time series with their fitted lines;
    [z_no2] and [z_t21] are the coefficients [np.polyfit] returned and
    [Poly1d z x] stands for [np.poly1d(z)(x)]. *)
Definition fig_series (rows : list Row) (theme : Theme)
    (z_no2 z_t21 : list float) : Figure :=
  let fechas := Dates (Fecha <$> rows) in
  let no2 := Floats (NO2 <$> rows) in
  let t21 := Floats (T21 <$> rows) in
  let idx := RangeLen (length rows) in
  mkFigure
    [mkTrace "NO2" fechas no2;
     mkTrace "Tendencia NO2" fechas (Poly1d z_no2 idx);
     mkTrace "T21" fechas t21;
     mkTrace "Tendencia T21" fechas (Poly1d z_t21 idx)]
    (plotly_template theme) (font theme).

(** Lines 490-518: yearly statistics. *)
Definition statistics (rows : list Row) : list (Place * Element) :=
  let fechas := Fecha <$> rows in
  let no2 := NO2 <$> rows in
  let t21 := T21 <$> rows in
  [([Tab 2], Markdown [Lit "### Estadisticas del Ano 2024"]);
   ([Tab 2; Col 1], Metric "NO2 Promedio" [Stat ".2e" (Mean no2)] None);
   ([Tab 2; Col 2], Metric "NO2 Maximo" [Stat ".2e" (Max no2)]
                      (Some [Stat "%B" (MonthOfMax fechas no2)]));
   ([Tab 2; Col 3], Metric "T21 Promedio" [Stat ".1f" (Mean t21); Lit " K"] None);
   ([Tab 2; Col 4], Metric "T21 Maximo" [Stat ".1f" (Max t21); Lit " K"]
                      (Some [Stat "%B" (MonthOfMax fechas t21)]))].

(** Lines 541-588: scatter plot with its fitted line. *)
Definition fig_scatter (rows : list Row) (theme : Theme) (z : list float)
    : Figure :=
  let no2 := NO2 <$> rows in
  let t21 := T21 <$> rows in
  let x_trend := Linspace (Min no2) (Max no2) 100 in
  mkFigure
    [mkTrace "Datos mensuales" (Floats no2) (Floats t21);
     mkTrace "Linea de tendencia" x_trend (Poly1d z x_trend)]
    (plotly_template theme) (font theme).

(** Lines 640-739 and 744-749: static text. *)
Definition information : list (Place * Element) :=
  [([Tab 4], Markdown [Lit "## Acerca de este Dashboard ### Fuentes de Datos"]);
   ([Tab 4; Col 1], Markdown [Lit "#### NO2 (Dioxido de Nitrogeno) Sentinel-5P TROPOMI"]);
   ([Tab 4; Col 2], Markdown [Lit "#### T21 (Temperatura de Brillo) FIRMS MODIS/VIIRS"]);
   ([Tab 4], Markdown [Lit "---"]);
   ([Tab 4], Markdown [Lit "### Region de Estudio ... ### Referencias ... ### Desarrollo"])].

Definition footer : list (Place * Element) :=
  [([], Markdown [Lit "---"]);
   ([], Markdown [Lit "<div>Desarrollado con Streamlit | Datos: Google Earth Engine</div>"])].

Section Script.

(** Library routines whose results are floating-point computations of
    Pillow, pandas and numpy: [img.resize(size, LANCZOS)],
    [Series.corr] and [np.polyfit(x, y, 1)].  The last one raises
    [TypeError] or [LinAlgError] on data it cannot fit, for instance on a
    single point with [x = 0]; nothing in the script catches that. *)
Variable resize : PIL.Image -> nat * nat -> PIL.Image.
Variable corr : list float -> list float -> float.
Variable polyfit : list float -> list float -> Exn + list float.

Definition unavailable (name : string) : Text :=
  [Lit "Imagen no disponible: "; Lit name].

(** [if img_path.exists(): st.image(Image.open(img_path)) else: st.error(..)] *)
Definition show_image (fs : FileSystem) (pl : Place) (img_path : string)
    (msg : Text) : M unit :=
  if exists_ fs img_path
  then img ← lift (Image_open fs img_path); emit pl (Picture img)
  else emit pl (ErrorBox msg).

(** Lines 285-340. *)
Definition overlay_view (fs : FileSystem) (inp : Inputs)
    (selected_month : string) : M unit :=
  emit [Tab 1] (Markdown [Lit "#### Mapa Superpuesto con Control de Capas"]) ;;
  emit [Tab 1; Col 1] (Slider "Opacidad NO2" 0.0 1.0 1.0 0.1) ;;
  emit [Tab 1; Col 2] (Slider "Opacidad T21" 0.0 1.0 0.5 0.1) ;;
  emit [Tab 1; Col 3] (Selectbox "Mezcla" ["Normal"; "Multiplicar"; "Pantalla"] 0) ;;
  let img_no2_path := image_path "no2" selected_month in
  let img_t21_path := image_path "t21" selected_month in
  if exists_ fs img_no2_path && exists_ fs img_t21_path then
    img_no2 ← lift (Image_open fs img_no2_path);
    img_t21 ← lift (Image_open fs img_t21_path);
    result ← lift_or ValueError
      (overlay resize img_no2 img_t21 (opacity_no2 inp) (opacity_t21 inp)
         (blend_mode inp));
    emit [Tab 1] (Picture result) ;;
    emit [Tab 1; Col 1]
      (Markdown [Lit "**NO2** (Opacidad: "; Num ".0%" (opacity_no2 inp); Lit ")"]) ;;
    emit [Tab 1; Col 2]
      (Markdown [Lit "**T21** (Opacidad: "; Num ".0%" (opacity_t21 inp); Lit ")"])
  else
    emit [Tab 1] (ErrorBox [Lit "Una o ambas imagenes no estan disponibles"]).

(** Lines 263-367: the three display modes. *)
Definition map_view (fs : FileSystem) (inp : Inputs)
    (selected_month : string) : M unit :=
  match view_mode inp with
  | LadoALado =>
      emit [Tab 1; Col 1] (Markdown [Lit "#### NO2 - Dioxido de Nitrogeno"]) ;;
      show_image fs [Tab 1; Col 1] (image_path "no2" selected_month)
        (unavailable (image_name "no2" selected_month)) ;;
      emit [Tab 1; Col 2]
        (Markdown [Lit "#### T21 - Temperatura de Brillo (Incendios)"]) ;;
      show_image fs [Tab 1; Col 2] (image_path "t21" selected_month)
        (unavailable (image_name "t21" selected_month))
  | Superposicion => overlay_view fs inp selected_month
  | Individual =>
      emit [Tab 1]
        (Radio "Selecciona la capa a visualizar:"
           ["NO2 - Dioxido de Nitrogeno";
            "T21 - Temperatura de Brillo (Incendios)"]) ;;
      emit [Tab 1] (Markdown [Lit "---"]) ;;
      match layer_choice inp with
      | CapaNO2 =>
          emit [Tab 1] (Markdown [Lit "#### NO2 - Dioxido de Nitrogeno"]) ;;
          show_image fs [Tab 1] (image_path "no2" selected_month)
            [Lit "Imagen no disponible"]
      | CapaT21 =>
          emit [Tab 1]
            (Markdown [Lit "#### T21 - Temperatura de Brillo (Incendios)"]) ;;
          show_image fs [Tab 1] (image_path "t21" selected_month)
            [Lit "Imagen no disponible"]
      end
  end.

(** Lines 245-400. *)
Definition tab1 (fs : FileSystem) (inp : Inputs) (selected_month : string)
    : M unit :=
  emit [Tab 1] (Subheader [Lit "Visualizacion Espacial - "; Lit selected_month]) ;;
  if negb (exists_ fs image_dir) then
    emit [Tab 1]
      (WarningBox [Lit "Carpeta 'monthly_images' no encontrada. Ejecuta el script de descarga primero."])
  else
    emit [Tab 1]
      (Radio "Modo de visualizacion:"
         ["Comparacion lado a lado"; "Superposicion con control";
          "Vista individual"]) ;;
    emit [Tab 1] (Markdown [Lit "---"]) ;;
    map_view fs inp selected_month ;;
    emit_all legends ;;
    emit tips.1 tips.2.

(** Lines 521-526: the table view works on [df_display = df.copy()]. *)
Definition data_table (df : option nat) : M unit :=
  df_display ← frame_copy df;
  f ← get_frame df_display;
  c ← lift (dt_strftime_Ym (col_Fecha f));
  set_frame df_display (mkFrame c (col_NO2 f) (col_T21 f)) ;;
  f ← get_frame df_display;
  c ← lift (apply_format ".2e" (col_NO2 f));
  set_frame df_display (mkFrame (col_Fecha f) c (col_T21 f)) ;;
  f ← get_frame df_display;
  c ← lift (apply_format ".2f" (col_T21 f));
  set_frame df_display (mkFrame (col_Fecha f) (col_NO2 f) c) ;;
  f ← get_frame df_display;
  emit [Tab 2; Expander] (Table f).

(** Lines 405-526: the two fits of lines 431 and 460 come before the
    chart is shown at line 487. *)
Definition tab2 (df : option nat) (theme : Theme) : M unit :=
  emit [Tab 2] (Subheader [Lit "Evolucion Temporal - Ano 2024"]) ;;
  rows ← read_df df;
  z_no2 ← lift (polyfit (arange (length rows)) (NO2 <$> rows));
  z_t21 ← lift (polyfit (arange (length rows)) (T21 <$> rows));
  emit [Tab 2] (PlotlyChart (fig_series rows theme z_no2 z_t21)) ;;
  emit_all (statistics rows) ;;
  data_table df.

(** Lines 535-638: the coefficient, the scatter plot with the line
    fitted at line 566, and the reading. *)
Definition correlation_page (rows : list Row) (theme : Theme)
    (z : list float) : list (Place * Element) :=
  let correlation := corr (NO2 <$> rows) (T21 <$> rows) in
  let i := interpret correlation in
  [([Tab 3; Col 1], PlotlyChart (fig_scatter rows theme z));
   ([Tab 3; Col 2],
    Markdown [Lit "Coeficiente de Correlacion "; Num ".3f" correlation;
              Lit " Correlacion de Pearson"]);
   ([Tab 3; Col 2], Markdown [Lit "<br>"]);
   ([Tab 3; Col 2],
    Markdown [Lit (color i); Lit (emoji i); Lit (interpretation i);
              Lit (desc i)]);
   ([Tab 3; Col 2], Markdown [Lit "<br>"]);
   ([Tab 3; Col 2], Markdown [Lit "### Interpretacion ..."])].

(** Lines 531-638. *)
Definition tab3 (df : option nat) (theme : Theme) : M unit :=
  emit [Tab 3] (Subheader [Lit "Analisis de Correlacion NO2 vs T21"]) ;;
  rows ← read_df df;
  z ← lift (polyfit (NO2 <$> rows) (T21 <$> rows));
  emit_all (correlation_page rows theme z).

(** Lines 183-749: everything after the call of [load_data]; the
    variable [metadata] is not referenced again. *)
Definition render (fs : FileSystem) (inp : Inputs) (theme : Theme)
    (df : option nat) (error : option string) : M unit :=
  (if truthy error then
     emit_all (error_page (default EmptyString error)) ;; st_stop
   else mret ()) ;;
  emit_all header ;;
  selected_month ← controls df inp;
  tab1 fs inp selected_month ;;
  tab2 df theme ;;
  tab3 df theme ;;
  emit_all information ;;
  emit_all footer.

(** The whole script: [df, metadata, error = load_data()] binds the two
    variables to fresh objects holding the returned values. *)
Definition script (fs : FileSystem) (inp : Inputs) : M unit :=
  theme ← styles inp;
  loaded ← st_cache_data (load_data fs);
  df ← new_object_opt (OFrame ∘ frame_of_rows <$> loaded.1.1);
  metadata ← new_object_opt (ODict <$> loaded.1.2);
  render fs inp theme df loaded.2.

(** One run of the script, started with the memo table [memo]. *)
Definition run (fs : FileSystem) (inp : Inputs) (memo : option Loaded)
    : Res unit * State :=
  script fs inp (mkState memo ∅ 0 []).

End Script.

(** ** Library routines in binary64 *)

Module Pearson.

(** [Series.corr] (method pearson) hands the two columns to
    [np.corrcoef]: the covariance divided by both standard deviations,
    and the quotient clipped to [-1, 1] by [np.clip].  A comparison with
    NaN is false, so that [clip] returns a NaN as it is.  The sums are
    taken from left to right: one possible behaviour of the library
    routine, used for concrete runs. *)
Section Binary64.
Local Open Scope float_scope.

Definition fsum (l : list float) : float := foldl PrimFloat.add 0 l.

Definition fmean (l : list float) : float :=
  fsum l / PrimFloat.of_uint63 (Uint63.of_Z (Z.of_nat (length l))).

Definition fcov (xs ys : list float) : float :=
  fsum (zip_with PrimFloat.mul ((fun x => x - fmean xs) <$> xs)
          ((fun y => y - fmean ys) <$> ys))
  / (PrimFloat.of_uint63 (Uint63.of_Z (Z.of_nat (length xs))) - 1).

Definition clip (x lo hi : float) : float :=
  if x <? lo then lo else if hi <? x then hi else x.

Definition corr_binary64 (xs ys : list float) : float :=
  clip (fcov xs ys / PrimFloat.sqrt (fcov xs xs) / PrimFloat.sqrt (fcov ys ys))
    (-1) 1.

End Binary64.

End Pearson.

Module Polyfit.

(** [np.polyfit(x, y, 1)]: numpy rejects an empty [x] and columns of
    different lengths with [TypeError], divides the columns [x] and [1]
    of the Vandermonde matrix by their Euclidean norms and hands them to
    [lstsq], which raises [LinAlgError] when the matrix or [y] holds a
    NaN or an infinity: so it does on a single point with [x = 0], whose
    column has norm 0.  Otherwise the coefficients are those of the
    least-squares line, slope first, divided by the norms again.  Here
    they are computed by the normal equations, with sums from left to
    right, where LAPACK uses a singular value decomposition: one
    possible behaviour of the library routine for columns of full rank,
    used for concrete runs. *)
Section Binary64.
Local Open Scope float_scope.

Definition dot (a b : list float) : float :=
  Pearson.fsum (zip_with PrimFloat.mul a b).

Definition norm (a : list float) : float := PrimFloat.sqrt (dot a a).

Definition polyfit_binary64 (x y : list float) : Exn + list float :=
  match x with
  | [] => inl TypeError
  | _ :: _ =>
      if bool_decide (length x ≠ length y) then inl TypeError
      else
        let ones := (fun _ => 1) <$> x in
        let scale_x := norm x in
        let scale_1 := norm ones in
        let a := (fun v => v / scale_x) <$> x in
        let b := (fun v => v / scale_1) <$> ones in
        if forallb is_finite (a ++ b ++ y) then
          let det := dot a a * dot b b - dot a b * dot a b in
          let c_x := (dot a y * dot b b - dot a b * dot b y) / det in
          let c_1 := (dot a a * dot b y - dot a b * dot a y) / det in
          inr [c_x / scale_x; c_1 / scale_1]
        else inl LinAlgError
  end.

End Binary64.

End Polyfit.

(** ** A small installation *)

Module Demo.
Import PIL.

Definition rows : list Row :=
  [mkRow (mkTimestamp 2024 1 1) 0x1.5p-16 300;
   mkRow (mkTimestamp 2024 2 1) 0x1.8p-16 310.5;
   mkRow (mkTimestamp 2024 3 1) 0x1.2p-16 305.25]%float.

Definition metadata : Metadata := [("region", "Peninsula de Yucatan")].

(** A raster with a fully transparent and a half transparent pixel. *)
Definition img_no2 : Image :=
  mkImage 2 1 [RGBA 10 20 30 0; RGBA 200 100 50 128].
Definition img_t21 : Image :=
  mkImage 2 1 [RGBA 255 0 0 255; RGBA 0 0 255 255].
Definition img_small : Image := mkImage 1 1 [RGBA 1 2 3 4].

Definition fs : FileSystem :=
  list_to_map
    [("datos_no2_t21.csv", CsvFile rows);
     ("metadata.json", JsonFile metadata);
     ("monthly_images", Directory);
     ("monthly_images/no2_2024-03.png", PngFile img_no2);
     ("monthly_images/t21_2024-03.png", PngFile img_t21);
     ("monthly_images/no2_2024-02.png", PngFile img_no2);
     ("monthly_images/t21_2024-01.png", PngFile img_t21)].

(** The same directory after the data files were removed. *)
Definition fs_removed : FileSystem :=
  delete "metadata.json" (delete "datos_no2_t21.csv" fs).

Definition loaded : Loaded := (Some rows, Some metadata, None).





(** The widgets as a first visit finds them. *)
Definition inputs : Inputs :=
  mkInputs Claro None LadoALado 1 0.5 Normal CapaNO2.

(** February selected, single-layer view of NO2. *)
Definition inputs_feb : Inputs :=
  mkInputs Claro (Some "2024-02") Individual 1 0.5 Normal CapaNO2.

(** A state in which the table is loaded as object 0. *)
Definition state : State :=
  mkState (Some loaded) {[ 0 := OFrame (frame_of_rows rows) ]} 1 [].

(** A resampling routine for the examples.  The script resamples with
    Pillow's LANCZOS filter, a floating-point convolution that is not
    modelled: the theorems take the routine as a parameter and use only
    that it returns a well-formed raster of the requested size.  This
    routine meets that contract by taking, for each target pixel, one
    source pixel found by integer division; it is none of Pillow's
    filters, and no statement depends on the pixels it yields. *)
Definition resize (im : Image) (sz : nat * nat) : Image :=
  mkImage sz.1 sz.2
    (y ← seq 0 sz.2;
     x ← seq 0 sz.1;
     [data im !!! ((y * height im / sz.2) * width im + x * width im / sz.1)%nat]).

Definition run :=
  run resize Pearson.corr_binary64 Polyfit.polyfit_binary64.

End Demo.

(** ** Vocabulary of the statements *)

(** The state after the elements [es] were emitted. *)
Definition emitted (s : State) (es : list (Place * Element)) : State :=
  mkState (cache s) (heap s) (next_id s) (page s ++ es).

(** The error boxes and the pictures of a page, with their places. *)
Definition errors (pg : list (Place * Element)) : list (Place * Text) :=
  omap (fun pe => match pe.2 with
                  | ErrorBox body => Some (pe.1, body)
                  | _ => None
                  end) pg.

Definition pictures (pg : list (Place * Element)) : list (Place * PIL.Image) :=
  omap (fun pe => match pe.2 with
                  | Picture img => Some (pe.1, img)
                  | _ => None
                  end) pg.

(** What the theme selector and the style sheet put on the page. *)
Definition styles_page (inp : Inputs) : list (Place * Element) :=
  [([], Radio "Tema:" ["Claro"; "Oscuro"]);
   ([], Markdown
          [Lit match theme_selector inp with
               | Oscuro => "<style> tema oscuro </style>"
               | Claro => "<style> tema claro </style>"
               end])].

(** The call of [load_data] returns [v]: from the memo table, or from
    the files when the table is empty. *)
Definition loads (fs : FileSystem) (memo : option Loaded) (v : Loaded) : Prop :=
  memo = Some v \/ (memo = None /\ load_data fs = inr v).

(** The raster of a variable for the month [m] is not on disk. *)
Definition missing (fs : FileSystem) (var m : string) : bool :=
  bool_decide (fs !! image_path var m = None).





(** The first row of the table whose date formats to [m]. *)
Definition first_match (rows : list Row) (m : string) : option (nat * Row) :=
  list_find (fun r => strftime_Ym (Fecha r) = m) rows.

(** The selector, the two value metrics, the delta metrics when there
    are any, and the hint: what the block of controls puts on the page. *)
Definition controls_page (rows : list Row) (selected_data : Row)
    (deltas : list (Place * Element)) : list (Place * Element) :=
  [([Col 1], Selectbox "Selecciona el mes:" (available_months rows)
               (Z.of_nat (length (available_months rows)) - 1));
   ([Col 2], Metric "NO2 (Dioxido de Nitrogeno)"
               (fmt_no2 (NO2 selected_data)) None);
   ([Col 3], Metric "T21 (Temperatura de Brillo)"
               (fmt_t21 (T21 selected_data)) None)]
  ++ deltas ++
  [([Col 4], InfoBox [Lit "Usa las pestanas superiores para explorar diferentes visualizaciones"])].

(** The table the data-table view displays. *)
Definition display_frame (rows : list Row) : Frame :=
  mkFrame (ObjectCol ((fun r => [Lit (strftime_Ym (Fecha r))]) <$> rows))
    (ObjectCol ((fun r => [Num ".2e" (NO2 r)]) <$> rows))
    (ObjectCol ((fun r => [Num ".2f" (T21 r)]) <$> rows)).

(** The same widget state with another blend mode. *)
Definition with_blend_mode (inp : Inputs) (bm : BlendMode) : Inputs :=
  mkInputs (theme_selector inp) (month_selector inp) (view_mode inp)
    (opacity_no2 inp) (opacity_t21 inp) bm (layer_choice inp).


(** The month the selector returns on the table [rows] (lines 197-203). *)
Definition selected_month (rows : list Row) (inp : Inputs) : option string :=
  st_selectbox (available_months rows)
    (Z.of_nat (length (available_months rows)) - 1) (month_selector inp).

#[global] Instance Container_eq_dec : EqDecision Container.
Proof. solve_decision. Defined.

(** The elements of a page that lie in tab [i]. *)
Definition in_tab (i : nat) (pg : list (Place * Element))
    : list (Place * Element) :=
  filter (fun pe => head pe.1 = Some (Tab i)) pg.

(** Hoare triples for script fragments: from a state satisfying [P] the
    fragment ends normally in a state satisfying [Q], or is cut short by
    [st.stop()] or an exception in a state satisfying [E]. *)
Definition hoare {A} (P : State -> Prop) (m : M A)
    (Q : A -> State -> Prop) (E : State -> Prop) : Prop :=
  forall s, P s ->
    match m s with
    | (Ok a, s') => Q a s'
    | (_, s') => E s'
    end.

(** The memo table is [c] and the objects below [bound] are those of [h]. *)
Definition stable (c : option Loaded) (h : gmap nat Obj) (bound : nat)
    (s : State) : Prop :=
  cache s = c /\ bound <= next_id s /\
  forall l, l < bound -> heap s !! l = h !! l.

(** * Properties *)

(** ** Rasters *)

Section RasterFacts.
Import PIL.
Local Open Scope Z_scope.

Lemma valid_image_length im :
  valid_image im = true -> length (data im) = (width im * height im)%nat.
Proof.
  unfold valid_image. intros [H _]%andb_prop. by apply Nat.eqb_eq in H.
Qed.

Lemma valid_image_pixels im :
  valid_image im = true -> Forall (fun p => valid_pixel p = true) (data im).
Proof.
  unfold valid_image. intros [_ H]%andb_prop.
  rewrite forallb_forall in H. apply Forall_forall. intros p Hp.
  apply H. by apply list_elem_of_In.
Qed.

Lemma valid_image_intro im :
  length (data im) = (width im * height im)%nat ->
  Forall (fun p => valid_pixel p = true) (data im) ->
  valid_image im = true.
Proof.
  intros Hlen Hall. unfold valid_image. apply andb_true_intro. split.
  - by apply Nat.eqb_eq.
  - apply forallb_forall. intros p Hp. rewrite Forall_forall in Hall.
    apply Hall. by apply list_elem_of_In.
Qed.

Lemma valid_channel_range c : valid_channel c = true -> 0 <= c < 256.
Proof. unfold valid_channel. intros [?%Z.leb_le ?%Z.ltb_lt]%andb_prop. lia. Qed.

Lemma opaque_band_id c : 0 <= c < 256 -> opaque_band c = c.
Proof.
  intros Hc.
  assert (Hall : forallb (fun n => opaque_band (Z.of_nat n) =? Z.of_nat n)
                   (seq 0 256) = true) by (vm_compute; reflexivity).
  rewrite forallb_forall in Hall.
  specialize (Hall (Z.to_nat c)). rewrite Z2Nat.id in Hall by lia.
  apply Z.eqb_eq, Hall, in_seq. lia.
Qed.

Lemma composite_pixel_opaque dst src :
  valid_pixel src = true -> alpha src = 255 -> composite_pixel dst src = src.
Proof.
  destruct src as [r g b a]; simpl. intros Hv ->.
  unfold valid_pixel in Hv; simpl in Hv.
  apply andb_prop in Hv as [[[Hr Hg]%andb_prop Hb]%andb_prop _].
  apply valid_channel_range in Hr, Hg, Hb.
  unfold composite_pixel; cbn [alpha red green blue].
  change (255 =? 0) with false; cbv iota zeta.
  rewrite Z.sub_diag, Z.mul_0_r.
  change (UINT32 (255 * 255 + UINT32 0)) with 65025.
  change (UINT32 (255 * 255 * 255 * Z.shiftl 1 PRECISION_BITS / 65025))
    with 32640.
  change (UINT32 (255 * Z.shiftl 1 PRECISION_BITS - 32640)) with 0.
  rewrite !Z.mul_0_r.
  change (Z.shiftl 128 PRECISION_BITS) with 16384.
  change (UINT8 (SHIFTFORDIV255 (UINT32 (65025 + 128)))) with 255.
  fold (opaque_band r) (opaque_band g) (opaque_band b).
  by rewrite !opaque_band_id.
Qed.

Lemma composite_pixel_transparent dst src :
  alpha src = 0 -> composite_pixel dst src = dst.
Proof. intros H. unfold composite_pixel. by rewrite H. Qed.

Lemma composite_pixel_valid dst src :
  valid_pixel dst = true -> valid_pixel (composite_pixel dst src) = true.
Proof.
  intros Hd. unfold composite_pixel. destruct (alpha src =? 0); [done|].
  cbv zeta. unfold valid_pixel, valid_channel, UINT8; cbn [red green blue alpha].
  repeat (apply andb_true_intro; split);
    first [ apply Z.leb_le | apply Z.ltb_lt ];
    match goal with |- context [ ?x mod 2 ^ 8 ] =>
      pose proof (Z.mod_pos_bound x (2 ^ 8)); lia end.
Qed.

Lemma zip_with_composite_opaque l1 l2 :
  length l1 = length l2 ->
  Forall (fun p => valid_pixel p = true /\ alpha p = 255) l2 ->
  zip_with composite_pixel l1 l2 = l2.
Proof.
  revert l1. induction l2 as [|p l2 IH]; intros [|q l1] Hlen Hall;
    simplify_eq/=; [done|].
  apply Forall_cons in Hall as [[Hv Ha] Hall].
  rewrite composite_pixel_opaque by done. f_equal. by apply IH.
Qed.

Lemma zip_with_composite_transparent l1 l2 :
  length l1 = length l2 ->
  Forall (fun p => alpha p = 0) l2 ->
  zip_with composite_pixel l1 l2 = l1.
Proof.
  revert l2. induction l1 as [|q l1 IH]; intros [|p l2] Hlen Hall;
    simplify_eq/=; [done|].
  apply Forall_cons in Hall as [Ha Hall].
  rewrite composite_pixel_transparent by done. f_equal. by apply IH.
Qed.

Lemma putalpha_255_opaque im :
  opaque im = true ->
  putalpha im 255 = im.
Proof.
  destruct im as [w h d]. unfold opaque, putalpha; simpl. intros H. f_equal.
  induction d as [|[r g b a] d IH]; [done|]. simpl in H.
  apply andb_prop in H as [->%Z.eqb_eq H]. csimpl. f_equal. by apply IH.
Qed.

Lemma length_bind_const {A B} (f : A -> list B) (l : list A) k :
  (forall x, length (f x) = k) -> length (l ≫= f) = (length l * k)%nat.
Proof.
  intros Hf. induction l as [|x l IH]; [done|].
  csimpl. rewrite length_app, Hf, IH. lia.
Qed.

Lemma Demo_resize_size im sz : size (Demo.resize im sz) = sz.
Proof. by destruct sz. Qed.

Lemma Demo_resize_valid im sz :
  valid_image im = true -> valid_image (Demo.resize im sz) = true.
Proof.
  intros Him. apply valid_image_intro; unfold Demo.resize; simpl.
  - rewrite (length_bind_const _ _ sz.1).
    + rewrite length_seq. lia.
    + intros y. rewrite (length_bind_const _ _ 1%nat); [|done].
      rewrite length_seq. lia.
  - apply Forall_bind, Forall_forall. intros y _.
    apply Forall_bind, Forall_forall. intros x _.
    apply Forall_singleton. rewrite list_lookup_total_alt.
    destruct (data im !! _) as [p|] eqn:Hp; simpl; [|done].
    apply valid_image_pixels in Him. rewrite Forall_forall in Him.
    apply Him. by eapply list_elem_of_lookup_2.
Qed.

End RasterFacts.

(** ** The overlay view *)

Section OverlayFacts.
Import PIL.
Local Open Scope Z_scope.

Variable resize : Image -> nat * nat -> Image.

(** What Pillow's [resize] guarantees whatever the filter. *)
Hypothesis resize_size : forall im sz, size (resize im sz) = sz.
Hypothesis resize_valid :
  forall im sz, valid_image im = true -> valid_image (resize im sz) = true.

Lemma same_size_size img_no2 img_t21 :
  size (same_size resize img_no2 img_t21) = size img_no2.
Proof using resize_size.
  unfold same_size. case_bool_decide as H; [apply resize_size|done].
Qed.

Lemma same_size_valid img_no2 img_t21 :
  valid_image img_t21 = true ->
  valid_image (same_size resize img_no2 img_t21) = true.
Proof using resize_valid.
  intros H. unfold same_size. case_bool_decide; [by apply resize_valid|done].
Qed.

Lemma same_size_length img_no2 img_t21 :
  valid_image img_no2 = true -> valid_image img_t21 = true ->
  length (data (same_size resize img_no2 img_t21)) = length (data img_no2).
Proof using resize_size resize_valid.
  intros H1 H2.
  rewrite (valid_image_length _ H1).
  rewrite (valid_image_length _ (same_size_valid img_no2 _ H2)).
  pose proof (same_size_size img_no2 img_t21) as Hs.
  unfold size in Hs. injection Hs as -> ->. done.
Qed.

Lemma overlay_unfold img_no2 img_t21 o1 o2 a1 a2 bm :
  valid_image img_no2 = true ->
  alpha_of_opacity o1 = Some a1 -> alpha_of_opacity o2 = Some a2 ->
  overlay resize img_no2 img_t21 o1 o2 bm =
  Some (mkImage (width img_no2) (height img_no2)
          (zip_with (overlay_pixel a1 a2) (data img_no2)
             (data (same_size resize img_no2 img_t21)))).
Proof using resize_size.
  intros Hv H1 H2. unfold overlay. rewrite H1, H2. simpl.
  unfold alpha_composite at 2.
  rewrite bool_decide_eq_true_2 by done. simpl.
  unfold alpha_composite. simpl.
  pose proof (same_size_size img_no2 img_t21) as Hs.
  rewrite bool_decide_eq_true_2 by exact (eq_sym Hs).
  do 2 f_equal.
  rewrite zip_with_replicate_l
    by (rewrite length_fmap, (valid_image_length _ Hv); lia).
  rewrite <- list_fmap_compose, zip_with_fmap_l, zip_with_fmap_r.
  done.
Qed.

Lemma CLIP8_range a : 0 <= CLIP8 a <= 255.
Proof. unfold CLIP8. repeat case_match; lia. Qed.

Lemma CLIP8_id a : 0 <= a <= 255 -> CLIP8 a = a.
Proof. unfold CLIP8. repeat case_match; lia. Qed.

Lemma putalpha_putalpha im v a :
  putalpha (copy (putalpha im v)) a = putalpha (copy im) a.
Proof.
  unfold putalpha, copy; simpl. f_equal.
  rewrite <- list_fmap_compose. by apply list_fmap_ext.
Qed.

Lemma overlay_pixel_no2_only p q :
  valid_pixel p = true ->
  overlay_pixel 255 0 p q = RGBA (red p) (green p) (blue p) 255.
Proof.
  intros Hp. unfold overlay_pixel.
  rewrite composite_pixel_transparent by done.
  apply composite_pixel_opaque; [|done].
  unfold valid_pixel in *; simpl.
  by apply andb_prop in Hp as [-> _].
Qed.

Lemma zip_with_overlay_no2_only d1 d2 :
  length d1 = length d2 ->
  Forall (fun p => valid_pixel p = true) d1 ->
  zip_with (overlay_pixel 255 0) d1 d2 =
  (fun p => RGBA (red p) (green p) (blue p) (CLIP8 255)) <$> d1.
Proof.
  revert d2. induction d1 as [|p d1 IH]; intros [|q d2] Hlen Hall;
    simplify_eq/=; [done|].
  apply Forall_cons in Hall as [Hp Hall].
  rewrite overlay_pixel_no2_only by done. f_equal. by apply IH.
Qed.

(** C1 (amended): with the NO2 opacity at 1.0 and the T21 opacity at 0.0
    the overlay is the NO2 raster with the alpha band of every pixel set
    to 255, whatever the T21 raster; it is the NO2 raster itself when
    that raster is fully opaque. *)
Theorem overlay_full_no2_hidden_t21 img_no2 img_t21 bm :
  valid_image img_no2 = true -> valid_image img_t21 = true ->
  overlay resize img_no2 img_t21 1 0 bm = Some (putalpha img_no2 255) /\
  (opaque img_no2 = true ->
   overlay resize img_no2 img_t21 1 0 bm = Some img_no2).
Proof using resize_size resize_valid.
  intros H1 H2.
  assert (Hov : overlay resize img_no2 img_t21 1 0 bm
                = Some (putalpha img_no2 255)).
  { rewrite (overlay_unfold _ _ _ _ 255 0) by done.
    rewrite zip_with_overlay_no2_only; [done| |by apply valid_image_pixels].
    symmetry. by apply same_size_length. }
  split; [done|]. intros Hop. by rewrite Hov, putalpha_255_opaque.
Qed.

(** C6: the T21 raster is resized to the size of the NO2 raster exactly
    when the two sizes differ, the composite is made from the NO2 raster
    and that layer, and it has the size of the NO2 raster. *)
Theorem overlay_has_no2_size img_no2 img_t21 o1 o2 a1 a2 bm :
  valid_image img_no2 = true ->
  alpha_of_opacity o1 = Some a1 -> alpha_of_opacity o2 = Some a2 ->
  (size img_no2 <> size img_t21 ->
   same_size resize img_no2 img_t21 = resize img_t21 (size img_no2)) /\
  (size img_no2 = size img_t21 ->
   same_size resize img_no2 img_t21 = img_t21) /\
  exists result,
    overlay resize img_no2 img_t21 o1 o2 bm = Some result /\
    size result = size img_no2 /\
    data result = zip_with (overlay_pixel a1 a2) (data img_no2)
                    (data (same_size resize img_no2 img_t21)).
Proof using resize_size.
  intros Hv H1 H2. repeat split.
  - intros Hne. unfold same_size. by rewrite bool_decide_eq_true_2.
  - intros Heq. unfold same_size. by rewrite bool_decide_eq_false_2 by auto.
  - eexists. split; [by apply overlay_unfold|]. done.
Qed.

(** C10: each layer enters the composite with the uniform alpha
    [int(255 * opacity)] in place of its own alpha band, NO2 first over
    an opaque white base of the size of the NO2 raster, T21 second; the
    alpha bands of the source rasters have no influence on the result. *)
Theorem overlay_uniform_alpha_over_white img_no2 img_t21 o1 o2 a1 a2 bm :
  valid_image img_no2 = true ->
  alpha_of_opacity o1 = Some a1 -> alpha_of_opacity o2 = Some a2 ->
  overlay resize img_no2 img_t21 o1 o2 bm =
    Some (mkImage (width img_no2) (height img_no2)
            (zip_with
               (fun p q =>
                  composite_pixel
                    (composite_pixel (RGBA 255 255 255 255)
                       (RGBA (red p) (green p) (blue p) (CLIP8 a1)))
                    (RGBA (red q) (green q) (blue q) (CLIP8 a2)))
               (data img_no2) (data (same_size resize img_no2 img_t21)))) /\
  (0 <= a1 <= 255 -> CLIP8 a1 = a1) /\
  (0 <= a2 <= 255 -> CLIP8 a2 = a2) /\
  (forall v, overlay resize (putalpha img_no2 v) img_t21 o1 o2 bm
             = overlay resize img_no2 img_t21 o1 o2 bm) /\
  (forall v, size img_no2 = size img_t21 ->
             overlay resize img_no2 (putalpha img_t21 v) o1 o2 bm
             = overlay resize img_no2 img_t21 o1 o2 bm).
Proof using resize_size.
  intros Hv H1 H2. split; [by apply overlay_unfold|].
  split; [apply CLIP8_id|]. split; [apply CLIP8_id|]. split.
  - intros v. unfold overlay. rewrite H1, H2. simpl.
    by rewrite putalpha_putalpha.
  - intros v Hsz. unfold overlay, same_size. rewrite H1, H2. simpl.
    rewrite !bool_decide_eq_false_2 by auto.
    by rewrite putalpha_putalpha.
Qed.

End OverlayFacts.

(** C1, as stated, fails on a raster with transparent pixels: at
    opacities 1.0 / 0.0 the overlay of two 2x1 rasters is not the NO2
    raster, whose alpha values 0 and 128 come out as 255. *)
Lemma overlay_full_no2_not_unchanged :
  PIL.valid_image Demo.img_no2 = true /\
  PIL.valid_image Demo.img_t21 = true /\
  PIL.size Demo.img_no2 = PIL.size Demo.img_t21 /\
  overlay Demo.resize Demo.img_no2 Demo.img_t21 1 0 Normal
  = Some (PIL.mkImage 2 1 [PIL.RGBA 10 20 30 255; PIL.RGBA 200 100 50 255]) /\
  overlay Demo.resize Demo.img_no2 Demo.img_t21 1 0 Normal
  <> Some Demo.img_no2.
Proof.
  repeat split; try reflexivity.
  intros H. vm_compute in H. discriminate H.
Qed.

Lemma overlay_full_no2_hidden_t21_witness :
  PIL.valid_image Demo.img_no2 = true /\
  PIL.valid_image Demo.img_small = true /\
  (overlay Demo.resize Demo.img_no2 Demo.img_small 1 0 Pantalla
   = Some (PIL.putalpha Demo.img_no2 255) /\
   (PIL.opaque Demo.img_no2 = true ->
    overlay Demo.resize Demo.img_no2 Demo.img_small 1 0 Pantalla
    = Some Demo.img_no2)).
Proof.
  split; [reflexivity|]. split; [reflexivity|].
  apply (overlay_full_no2_hidden_t21 Demo.resize
           Demo_resize_size Demo_resize_valid); reflexivity.
Defined.

Lemma overlay_has_no2_size_witness :
  PIL.valid_image Demo.img_no2 = true /\
  alpha_of_opacity 1 = Some 255%Z /\ alpha_of_opacity 0.5 = Some 127%Z /\
  exists result,
    overlay Demo.resize Demo.img_no2 Demo.img_small 1 0.5 Normal
    = Some result /\
    PIL.size result = (2, 1).
Proof.
  split; [reflexivity|]. split; [reflexivity|]. split; [reflexivity|].
  destruct (overlay_has_no2_size Demo.resize Demo_resize_size
              Demo.img_no2 Demo.img_small 1 0.5 255 127 Normal)
    as (_ & _ & result & Hov & Hsz & _); [reflexivity..|].
  exists result. split; [exact Hov|exact Hsz].
Defined.

Lemma overlay_uniform_alpha_over_white_witness :
  PIL.valid_image Demo.img_no2 = true /\
  alpha_of_opacity 1 = Some 255%Z /\ alpha_of_opacity 0.5 = Some 127%Z /\
  overlay Demo.resize Demo.img_no2 Demo.img_t21 1 0.5 Normal
  = Some (PIL.mkImage 2 1 [PIL.RGBA 132 10 15 255; PIL.RGBA 100 50 152 255]).
Proof.
  split; [reflexivity|]. split; [reflexivity|]. split; [reflexivity|].
  destruct (overlay_uniform_alpha_over_white Demo.resize
              Demo_resize_size Demo.img_no2 Demo.img_t21 1 0.5 255 127
              Normal) as (Hov & _); [reflexivity..|].
  rewrite Hov. reflexivity.
Defined.

(** ** Running script fragments *)

Lemma bind_ok {A B} (m : M A) (k : A -> M B) s a s' :
  m s = (Ok a, s') -> (m ≫= k) s = k a s'.
Proof. intros H. unfold mbind, M_bind. by rewrite H. Qed.

Lemma emitted_nil s : emitted s [] = s.
Proof. destruct s. unfold emitted; simpl. by rewrite app_nil_r. Qed.

Lemma emitted_app s es1 es2 :
  emitted (emitted s es1) es2 = emitted s (es1 ++ es2).
Proof. unfold emitted; simpl. by rewrite app_assoc. Qed.

Lemma emit_run pl e s : emit pl e s = (Ok (), emitted s [(pl, e)]).
Proof. done. Qed.

Lemma emit_all_run es s : emit_all es s = (Ok (), emitted s es).
Proof.
  revert s. induction es as [|[pl e] es IH]; intros s.
  - by rewrite emitted_nil.
  - simpl. erewrite bind_ok by apply emit_run.
    by rewrite IH, emitted_app.
Qed.

Lemma rows_of_frame_of_rows rows : rows_of (frame_of_rows rows) = Some rows.
Proof.
  unfold rows_of, frame_of_rows; simpl. f_equal.
  induction rows as [|[t x y] rows IH]; [done|]. csimpl. by rewrite IH.
Qed.

Lemma read_df_run df rows s :
  heap s !! df = Some (OFrame (frame_of_rows rows)) ->
  read_df (Some df) s = (Ok rows, s).
Proof.
  intros H. unfold read_df.
  erewrite bind_ok by (unfold get_frame; by rewrite H).
  by rewrite rows_of_frame_of_rows.
Qed.

(** Evaluation of a fragment applied to a state, one statement at a time. *)
Ltac mstep :=
  unfold mbind, M_bind, mret, M_ret;
  try first [ rewrite emit_run | rewrite emit_all_run ];
  cbv beta iota zeta.

(** *** The selection *)

Lemma elem_of_unique x l : x ∈ unique l <-> x ∈ l.
Proof.
  induction l as [|y l IH]; simpl; [done|].
  rewrite !elem_of_cons, list_elem_of_filter, IH.
  destruct (decide (x = y)); tauto.
Qed.

Lemma elem_of_available_months m rows :
  m ∈ available_months rows <->
  exists r, r ∈ rows /\ strftime_Ym (Fecha r) = m.
Proof.
  unfold available_months, sorted.
  rewrite merge_sort_Permutation, elem_of_unique, list_elem_of_fmap.
  split; intros (r & H1 & H2); eauto.
Qed.

Lemma available_months_first_match m rows :
  m ∈ available_months rows -> is_Some (first_match rows m).
Proof.
  intros (r & Hr & Hm)%elem_of_available_months.
  by eapply list_find_elem_of.
Qed.

Lemma st_selectbox_offered options index m :
  m ∈ options -> st_selectbox options index (Some m) = Some m.
Proof. intros H. unfold st_selectbox. by rewrite bool_decide_eq_true_2. Qed.

Lemma boolean_mask_head_gen (g : nat -> nat) (rows : list Row) (m : string) :
  head (filter (month_is (Some m)) (imap (fun j r => (g j, r)) rows))
  = prod_map g Datatypes.id <$> first_match rows m.
Proof.
  unfold first_match. revert g.
  induction rows as [|r rows IH]; intros g; [done|].
  rewrite imap_cons. cbn [list_find].
  destruct (decide (strftime_Ym (Fecha r) = m)) as [Heq|Hne].
  - rewrite filter_cons_True by (unfold month_is; simpl; by rewrite Heq).
    done.
  - rewrite filter_cons_False by (unfold month_is; simpl; congruence).
    etrans; [exact (IH (g ∘ S))|].
    destruct (list_find _ rows) as [[i x]|]; done.
Qed.

Lemma boolean_mask_head (rows : list Row) (m : string) :
  head (boolean_mask rows (Some m)) = first_match rows m.
Proof.
  unfold boolean_mask.
  pose proof (boolean_mask_head_gen Datatypes.id rows m) as H.
  change (imap (fun j r => (Datatypes.id j, r)) rows) with (imap pair rows) in H.
  rewrite H. by destruct (first_match rows m) as [[??]|].
Qed.

Lemma first_match_lookup rows m i r :
  first_match rows m = Some (i, r) ->
  rows !! i = Some r /\ strftime_Ym (Fecha r) = m /\
  forall j r', j < i -> rows !! j = Some r' -> strftime_Ym (Fecha r') <> m.
Proof.
  unfold first_match. intros (H1 & H2 & H3)%list_find_Some.
  repeat split; [done..|]. intros j r' Hj Hr'. by eapply H3.
Qed.

(** The block of controls, run on a loaded table with the month [m]
    selected: [i] and [cur] are the first row of that month. *)
Lemma controls_run rows inp df s m i cur :
  heap s !! df = Some (OFrame (frame_of_rows rows)) ->
  st_selectbox (available_months rows)
    (Z.of_nat (length (available_months rows)) - 1) (month_selector inp)
  = Some m ->
  first_match rows m = Some (i, cur) ->
  controls (Some df) inp s =
  (Ok m,
   emitted s
     (controls_page rows cur
        match i with
        | 0 => []
        | S j =>
            match rows !! j with
            | Some prev =>
                delta_metrics (delta_no2 (NO2 cur) (NO2 prev))
                  (delta_t21 (T21 cur) (T21 prev))
            | None => []
            end
        end)).
Proof.
  intros Hdf Hsel Hfind. unfold controls.
  erewrite bind_ok by (by apply read_df_run). cbv beta zeta.
  rewrite Hsel.
  pose proof (boolean_mask_head rows m) as Hhead. rewrite Hfind in Hhead.
  destruct (boolean_mask rows (Some m)) as [|[i' cur'] sel] eqn:Hmask;
    simplify_eq/=.
  apply first_match_lookup in Hfind as (Hi & _ & _).
  pose proof (lookup_lt_Some _ _ _ Hi) as Hlen.
  mstep. mstep. mstep.
  unfold controls_page.
  destruct i as [|j].
  - rewrite (bool_decide_eq_false_2 (0 < 0)) by lia.
    case_bool_decide; mstep; by rewrite !emitted_app.
  - rewrite (bool_decide_eq_true_2 (1 < length rows)) by lia.
    rewrite (bool_decide_eq_true_2 (0 < S j)) by lia.
    replace (S j - 1) with j by lia.
    destruct (lookup_lt_is_Some_2 rows j) as [prev Hprev]; [lia|].
    unfold iloc, lift. rewrite Hprev.
    mstep. mstep. mstep. by rewrite !emitted_app.
Qed.

Lemma first_match_available rows m i r :
  first_match rows m = Some (i, r) -> m ∈ available_months rows.
Proof.
  intros (Hi & Hm & _)%first_match_lookup.
  apply elem_of_available_months. exists r. split; [|done].
  by eapply list_elem_of_lookup_2.
Qed.

(** C5: for a month the selector offers, the two value metrics show the
    NO2 and T21 values of the first row of the table whose date formats
    to that month, passed as they are to the number formats. *)
Theorem metric_panel_shows_selected_row rows inp df s m :
  heap s !! df = Some (OFrame (frame_of_rows rows)) ->
  m ∈ available_months rows ->
  month_selector inp = Some m ->
  exists i row deltas,
    rows !! i = Some row /\ strftime_Ym (Fecha row) = m /\
    (forall j r, j < i -> rows !! j = Some r -> strftime_Ym (Fecha r) <> m) /\
    controls (Some df) inp s =
      (Ok m,
       emitted s
         ([([Col 1], Selectbox "Selecciona el mes:" (available_months rows)
                       (Z.of_nat (length (available_months rows)) - 1));
           ([Col 2], Metric "NO2 (Dioxido de Nitrogeno)"
                       [Num ".2e" (NO2 row); Lit " mol/m2"] None);
           ([Col 3], Metric "T21 (Temperatura de Brillo)"
                       [Num ".1f" (T21 row); Lit " K"] None)]
          ++ deltas ++
          [([Col 4], InfoBox [Lit "Usa las pestanas superiores para explorar diferentes visualizaciones"])])).
Proof.
  intros Hdf Hm Hsel.
  destruct (available_months_first_match _ _ Hm) as [[i row] Hfind].
  pose proof (first_match_lookup _ _ _ _ Hfind) as (Hi & Hrow & Hfirst).
  eexists i, row, _. repeat split; [done..|].
  erewrite controls_run; [reflexivity|done| |done].
  rewrite Hsel. by apply st_selectbox_offered.
Qed.

(** C3: when the first row of the selected month is not the first row of
    the table, the delta metric of NO2 shows (current - previous) /
    previous * 100 computed from that row and the row before it; when it
    is the first row, as it is in a table of at most one row, no delta
    metric is shown. *)
Theorem delta_is_month_over_month rows inp df s m i cur :
  heap s !! df = Some (OFrame (frame_of_rows rows)) ->
  month_selector inp = Some m ->
  first_match rows m = Some (i, cur) ->
  (0 < i ->
   exists prev, rows !! (i - 1) = Some prev /\
     controls (Some df) inp s =
       (Ok m,
        emitted s
          (controls_page rows cur
             [([Col 4],
               Metric "Delta NO2"
                 [Num "+.1f" ((NO2 cur - NO2 prev) / NO2 prev * 100)%float;
                  Lit "%"]
                 (Some [Num "+.1f" ((NO2 cur - NO2 prev) / NO2 prev * 100)%float;
                        Lit "%"]));
              ([Col 4],
               Metric "Delta T21"
                 [Num "+.1f" (T21 cur - T21 prev)%float; Lit " K"]
                 (Some [Num "+.1f" (T21 cur - T21 prev)%float; Lit " K"]))]))) /\
  (i = 0 ->
   controls (Some df) inp s = (Ok m, emitted s (controls_page rows cur []))) /\
  (length rows <= 1 -> i = 0).
Proof.
  intros Hdf Hsel Hfind.
  assert (Hbox : st_selectbox (available_months rows)
                   (Z.of_nat (length (available_months rows)) - 1)
                   (month_selector inp) = Some m).
  { rewrite Hsel. apply st_selectbox_offered.
    by eapply first_match_available. }
  pose proof (controls_run _ _ _ _ _ _ _ Hdf Hbox Hfind) as Hrun.
  pose proof (first_match_lookup _ _ _ _ Hfind) as (Hi & _ & _).
  pose proof (lookup_lt_Some _ _ _ Hi) as Hlen.
  repeat split.
  - intros Hpos. destruct i as [|j]; [lia|].
    destruct (lookup_lt_is_Some_2 rows j) as [prev Hprev]; [lia|].
    exists prev. replace (S j - 1) with j by lia. split; [done|].
    by rewrite Hprev in Hrun.
  - by intros ->.
  - lia.
Qed.

Lemma metric_panel_shows_selected_row_witness :
  exists i row deltas,
    Demo.rows !! i = Some row /\ strftime_Ym (Fecha row) = "2024-02" /\
    (forall j r, j < i -> Demo.rows !! j = Some r ->
                 strftime_Ym (Fecha r) <> "2024-02") /\
    controls (Some 0) Demo.inputs_feb Demo.state =
      (Ok "2024-02",
       emitted Demo.state
         ([([Col 1], Selectbox "Selecciona el mes:" (available_months Demo.rows)
                       (Z.of_nat (length (available_months Demo.rows)) - 1));
           ([Col 2], Metric "NO2 (Dioxido de Nitrogeno)"
                       [Num ".2e" (NO2 row); Lit " mol/m2"] None);
           ([Col 3], Metric "T21 (Temperatura de Brillo)"
                       [Num ".1f" (T21 row); Lit " K"] None)]
          ++ deltas ++
          [([Col 4], InfoBox [Lit "Usa las pestanas superiores para explorar diferentes visualizaciones"])])).
Proof.
  apply (metric_panel_shows_selected_row Demo.rows Demo.inputs_feb 0
           Demo.state "2024-02").
  - reflexivity.
  - apply (bool_decide_unpack _). vm_compute. exact I.
  - reflexivity.
Defined.

Lemma delta_is_month_over_month_witness :
  first_match Demo.rows "2024-02"
  = Some (1, mkRow (mkTimestamp 2024 2 1) 0x1.8p-16 310.5) /\
  exists prev, Demo.rows !! 0 = Some prev /\
    controls (Some 0) Demo.inputs_feb Demo.state =
      (Ok "2024-02",
       emitted Demo.state
         (controls_page Demo.rows (mkRow (mkTimestamp 2024 2 1) 0x1.8p-16 310.5)
            [([Col 4],
              Metric "Delta NO2"
                [Num "+.1f" ((0x1.8p-16 - NO2 prev) / NO2 prev * 100)%float;
                 Lit "%"]
                (Some [Num "+.1f" ((0x1.8p-16 - NO2 prev) / NO2 prev * 100)%float;
                       Lit "%"]));
             ([Col 4],
              Metric "Delta T21"
                [Num "+.1f" (310.5 - T21 prev)%float; Lit " K"]
                (Some [Num "+.1f" (310.5 - T21 prev)%float; Lit " K"]))])).
Proof.
  split; [reflexivity|].
  apply (delta_is_month_over_month Demo.rows Demo.inputs_feb 0 Demo.state
           "2024-02" 1 (mkRow (mkTimestamp 2024 2 1) 0x1.8p-16 310.5));
    [reflexivity..|lia].
Defined.

(** ** Binary64 comparisons *)

Section FloatFacts.





Lemma SFcompare_refl X : X <> S754_nan -> SFcompare X X = Some Eq.
Proof.
  destruct X as [sx|sx| |sx mx ex]; intros H; try done; simpl.
  - by destruct sx.
  - rewrite Z.compare_refl, Pos.compare_cont_refl. by destruct sx.
Qed.

Lemma nan_spec x : (x =? x)%float = false -> Prim2SF x = S754_nan.
Proof.
  rewrite FloatAxioms.eqb_spec. unfold SFeqb. intros H.
  destruct (Prim2SF x) as [sx|sx| |sx mx ex] eqn:E; [| |done|];
    by rewrite SFcompare_refl in H.
Qed.

Lemma ltb_nan_l x y : Prim2SF x = S754_nan -> (x <? y)%float = false.
Proof. intros H. rewrite ltb_spec, H. done. Qed.


End FloatFacts.


Section CoefficientFacts.

(** [Series.corr] returns NaN or an entry of [np.corrcoef], which numpy
    clips to [-1, 1] before it returns. *)
Variable corr : list float -> list float -> float.
Hypothesis corr_clipped :
  forall xs ys, exists q, corr xs ys = Pearson.clip q (-1) 1.


End CoefficientFacts.



(** ** Runs of the script *)

Section RunFacts.

Variable resize : PIL.Image -> nat * nat -> PIL.Image.
Variable corr : list float -> list float -> float.
Variable polyfit : list float -> list float -> Exn + list float.

Lemma styles_run inp s :
  styles inp s = (Ok (theme_selector inp), emitted s (styles_page inp)).
Proof.
  unfold styles, styles_page.
  destruct (theme_selector inp); mstep; mstep; by rewrite emitted_app.
Qed.

Lemma load_data_missing fs :
  fs !! "datos_no2_t21.csv" = None \/
  ((exists rows, fs !! "datos_no2_t21.csv" = Some (CsvFile rows)) /\
   fs !! "metadata.json" = None) ->
  load_data fs = inr (None, None, Some error_msg).
Proof.
  unfold load_data, read_csv, json_load.
  change (normpath csv_path) with "datos_no2_t21.csv".
  change (normpath metadata_path) with "metadata.json".
  intros [->|[[rows ->] ->]]; reflexivity.
Qed.

Lemma error_msg_truthy : truthy (Some error_msg) = true.
Proof. reflexivity. Qed.

(** C4 (amended): when no result of [load_data] is memoised, or the
    memoised result is the error, and the CSV file is absent, or it is
    readable and the metadata file is absent, [load_data] returns
    (None, None, error) with a non-empty message and the run halts with
    nothing on the page but the theme selector, the style sheet and the
    three messages. *)
Theorem missing_files_halt fs inp memo :
  fs !! "datos_no2_t21.csv" = None \/
  ((exists rows, fs !! "datos_no2_t21.csv" = Some (CsvFile rows)) /\
   fs !! "metadata.json" = None) ->
  memo = None \/ memo = Some (None, None, Some error_msg) ->
  load_data fs = inr (None, None, Some error_msg) /\
  error_msg <> EmptyString /\
  run resize corr polyfit fs inp memo =
    (Stop,
     mkState (Some (None, None, Some error_msg)) ∅ 0
       (styles_page inp ++
        [([], ErrorBox [Lit error_msg]);
         ([], InfoBox [Lit "Asegurate de haber autenticado Earth Engine antes de ejecutar el script"]);
         ([], CodeBlock "import ee; ee.Authenticate(); ee.Initialize(project='tu-proyecto')")])).
Proof.
  intros Hfs Hmemo. pose proof (load_data_missing fs Hfs) as Hload.
  split; [done|]. split; [done|].
  unfold run, script.
  erewrite bind_ok by apply styles_run.
  unfold st_cache_data. unfold mbind at 1, M_bind at 1.
  destruct Hmemo as [-> | ->]; cbn [cache emitted]; rewrite ?Hload;
    cbv beta iota zeta; cbn [fst snd fmap option_fmap option_map];
    unfold new_object_opt; mstep;
    unfold render; rewrite error_msg_truthy;
    mstep; unfold st_stop; cbv beta iota; reflexivity.
Qed.

End RunFacts.

(** C4, as stated, fails once [load_data] has returned the table: both
    files were removed, yet the run takes the table from the memo, shows
    no error and renders the dashboard, here the NO2 metric of March. *)
Lemma stale_memo_renders_dashboard :
  Demo.fs_removed !! "datos_no2_t21.csv" = None /\
  Demo.fs_removed !! "metadata.json" = None /\
  let r := Demo.run Demo.fs_removed Demo.inputs (Some Demo.loaded) in
  r.1 = Ok () /\
  errors (page r.2) = [] /\
  page r.2 !! 5 =
    Some ([Col 2], Metric "NO2 (Dioxido de Nitrogeno)"
                     [Num ".2e" 0x1.2p-16; Lit " mol/m2"] None).
Proof. repeat split; vm_compute; reflexivity. Qed.

Lemma missing_files_halt_witness :
  Demo.fs_removed !! "datos_no2_t21.csv" = None /\
  load_data Demo.fs_removed = inr (None, None, Some error_msg) /\
  (Demo.run Demo.fs_removed Demo.inputs None).1 = Stop.
Proof.
  split; [reflexivity|].
  destruct (missing_files_halt Demo.resize Pearson.corr_binary64 Polyfit.polyfit_binary64
              Demo.fs_removed Demo.inputs None) as (Hload & _ & Hrun).
  - left. reflexivity.
  - left. reflexivity.
  - split; [exact Hload|]. exact (f_equal fst Hrun).
Defined.

(** ** The blend mode *)

Section BlendModeFacts.

Variable resize : PIL.Image -> nat * nat -> PIL.Image.
Variable corr : list float -> list float -> float.
Variable polyfit : list float -> list float -> Exn + list float.

Lemma overlay_view_blend_mode fs inp bm m :
  overlay_view resize fs (with_blend_mode inp bm) m
  = overlay_view resize fs inp m.
Proof. reflexivity. Qed.

Lemma map_view_blend_mode fs inp bm m :
  map_view resize fs (with_blend_mode inp bm) m = map_view resize fs inp m.
Proof. reflexivity. Qed.

(** C8: the composite does not depend on the blend mode, and two runs
    that differ only in the blend mode selected produce the same page,
    composited image included. *)
Theorem blend_mode_is_ignored fs inp memo bm :
  (forall img_no2 img_t21 o1 o2 bm',
     overlay resize img_no2 img_t21 o1 o2 bm
     = overlay resize img_no2 img_t21 o1 o2 bm') /\
  run resize corr polyfit fs (with_blend_mode inp bm) memo
  = run resize corr polyfit fs inp memo.
Proof. split; reflexivity. Qed.

End BlendModeFacts.

(** ** The memo table and the loaded objects *)

Section FrameFacts.

Variable resize : PIL.Image -> nat * nat -> PIL.Image.
Variable corr : list float -> list float -> float.
Variable polyfit : list float -> list float -> Exn + list float.

Lemma hoare_bind {A B} P (m : M A) (k : A -> M B) Q R E :
  hoare P m Q E -> (forall a, hoare (Q a) (k a) R E) ->
  hoare P (m ≫= k) R E.
Proof.
  intros Hm Hk s HP. specialize (Hm s HP). unfold mbind, M_bind.
  destruct (m s) as [[a| |e] s']; [by apply Hk|done..].
Qed.

Lemma hoare_pure_pre {A} (phi : Prop) P (m : M A) Q E :
  (phi -> hoare P m Q E) -> hoare (fun s => phi /\ P s) m Q E.
Proof. intros H s [Hphi HP]. by apply H. Qed.

Lemma hoare_final {A} (I : State -> Prop) (m : M A) s :
  hoare I m (fun _ => I) I -> I s -> I (m s).2.
Proof.
  intros H HI. specialize (H s HI). by destruct (m s) as [[a| |e] s'].
Qed.

(** Fragments that keep the memo table [c] and the objects of [h] below
    [b]: a fragment keeps them if it ends in such a state however it
    ends. *)
Section Keeps.

Variable c : option Loaded.
Variable h : gmap nat Obj.
Variable b : nat.

Local Abbreviation I := (stable c h b).
Local Abbreviation keeps m := (hoare I m (fun _ => I) I).

Lemma keeps_ret {A} (a : A) : keeps (mret a).
Proof. by intros s Hs. Qed.

Lemma keeps_bind {A B} (m : M A) (k : A -> M B) :
  keeps m -> (forall a, keeps (k a)) -> keeps (m ≫= k).
Proof. intros. by eapply hoare_bind. Qed.

Lemma keeps_emit pl e : keeps (emit pl e).
Proof. by intros s Hs. Qed.

Lemma keeps_emit_all es : keeps (emit_all es).
Proof.
  induction es as [|[pl e] es IH]; simpl; [apply keeps_ret|].
  apply keeps_bind; [apply keeps_emit|done].
Qed.

Lemma keeps_stop {A} : keeps (@st_stop A).
Proof. by intros s Hs. Qed.

Lemma keeps_raise {A} e Q : hoare I (@raise A e) Q I.
Proof. by intros s Hs. Qed.

Lemma keeps_lift {A} (r : Exn + A) : keeps (lift r).
Proof. destruct r; [apply keeps_raise|apply keeps_ret]. Qed.

Lemma keeps_lift_or {A} e (r : option A) : keeps (lift_or e r).
Proof. destruct r; [apply keeps_ret|apply keeps_raise]. Qed.

Lemma keeps_get_frame l : keeps (get_frame l).
Proof.
  intros s Hs. unfold get_frame.
  destruct (heap s !! l) as [[f|m]|]; done.
Qed.

Lemma keeps_read_df df : keeps (read_df df).
Proof.
  destruct df as [l|]; simpl; [|apply keeps_raise].
  apply keeps_bind; [apply keeps_get_frame|intros f; apply keeps_lift_or].
Qed.

(** A new object lies above the bound... *)
Lemma new_object_above o :
  hoare I (new_object o) (fun l s => b <= l /\ I s) I.
Proof.
  intros s (Hc & Hb & Hh). unfold new_object, stable. simpl.
  split; [done|]. split; [done|]. split; [lia|].
  intros l Hl. rewrite lookup_insert_ne by lia. by apply Hh.
Qed.

(** ... and assignments to objects above the bound are kept. *)
Lemma keeps_set_frame l f : b <= l -> keeps (set_frame l f).
Proof.
  intros Hl s (Hc & Hb & Hh). unfold set_frame, stable. simpl.
  split; [done|]. split; [done|].
  intros l' Hl'. rewrite lookup_insert_ne by lia. by apply Hh.
Qed.

Lemma frame_copy_above df :
  hoare I (frame_copy df) (fun l s => b <= l /\ I s) I.
Proof.
  destruct df as [l|]; simpl; [|apply keeps_raise].
  eapply hoare_bind; [apply keeps_get_frame|intros f; apply new_object_above].
Qed.

(** Descent through a fragment: binds and conditionals are split, the
    statements are closed by [leaf]. *)
Ltac keeps_with leaf :=
  repeat lazymatch goal with
    | |- hoare _ (mbind _ _) _ _ => apply keeps_bind; [|intros ?]
    | |- hoare _ (if _ then _ else _) _ _ => case_match
    | |- hoare _ (match ?x with _ => _ end) _ _ => destruct x
    | |- _ => leaf
    end.

Ltac keeps_leaf :=
  idtac;
  lazymatch goal with
  | |- hoare _ (emit _ _) _ _ => apply keeps_emit
  | |- hoare _ (emit_all _) _ _ => apply keeps_emit_all
  | |- hoare _ (read_df _) _ _ => apply keeps_read_df
  | |- hoare _ (get_frame _) _ _ => apply keeps_get_frame
  | |- hoare _ (lift _) _ _ => apply keeps_lift
  | |- hoare _ (lift_or _ _) _ _ => apply keeps_lift_or
  | |- hoare _ (mret _) _ _ => apply keeps_ret
  | |- hoare _ st_stop _ _ => apply keeps_stop
  | |- hoare _ (raise _) _ _ => apply keeps_raise
  end.

Lemma keeps_data_table df : keeps (data_table df).
Proof.
  unfold data_table.
  eapply hoare_bind; [apply frame_copy_above|].
  intros df_display. apply hoare_pure_pre. intros Hl.
  keeps_with ltac:(idtac; lazymatch goal with
                   | |- hoare _ (set_frame _ _) _ _ => by apply keeps_set_frame
                   | |- _ => keeps_leaf
                   end).
Qed.

Lemma keeps_controls df inp : keeps (controls df inp).
Proof. unfold controls. keeps_with keeps_leaf. Qed.

Lemma keeps_show_image fs pl p msg : keeps (show_image fs pl p msg).
Proof. unfold show_image. keeps_with keeps_leaf. Qed.

Lemma keeps_overlay_view fs inp m : keeps (overlay_view resize fs inp m).
Proof. unfold overlay_view. keeps_with keeps_leaf. Qed.

Lemma keeps_map_view fs inp m : keeps (map_view resize fs inp m).
Proof.
  unfold map_view.
  keeps_with ltac:(idtac; lazymatch goal with
                   | |- hoare _ (show_image _ _ _ _) _ _ =>
                       apply keeps_show_image
                   | |- hoare _ (overlay_view _ _ _ _) _ _ =>
                       apply keeps_overlay_view
                   | |- _ => keeps_leaf
                   end).
Qed.

Lemma keeps_tab1 fs inp m : keeps (tab1 resize fs inp m).
Proof.
  unfold tab1.
  keeps_with ltac:(idtac; lazymatch goal with
                   | |- hoare _ (map_view _ _ _ _) _ _ => apply keeps_map_view
                   | |- _ => keeps_leaf
                   end).
Qed.

Lemma keeps_tab2 df theme : keeps (tab2 polyfit df theme).
Proof.
  unfold tab2.
  keeps_with ltac:(idtac; lazymatch goal with
                   | |- hoare _ (data_table _) _ _ => apply keeps_data_table
                   | |- _ => keeps_leaf
                   end).
Qed.

Lemma keeps_tab3 df theme : keeps (tab3 corr polyfit df theme).
Proof. unfold tab3. keeps_with keeps_leaf. Qed.

Lemma keeps_render fs inp theme df error :
  keeps (render resize corr polyfit fs inp theme df error).
Proof.
  unfold render.
  keeps_with ltac:(idtac; lazymatch goal with
                   | |- hoare _ (controls _ _) _ _ => apply keeps_controls
                   | |- hoare _ (tab1 _ _ _ _) _ _ => apply keeps_tab1
                   | |- hoare _ (tab2 _ _ _) _ _ => apply keeps_tab2
                   | |- hoare _ (tab3 _ _ _ _) _ _ => apply keeps_tab3
                   | |- _ => keeps_leaf
                   end).
Qed.

End Keeps.

Lemma get_frame_run l f s :
  heap s !! l = Some (OFrame f) -> get_frame l s = (Ok f, s).
Proof. intros H. unfold get_frame. by rewrite H. Qed.

Lemma display_frame_columns rows :
  mkFrame
    (ObjectCol ((fun t => [Lit (strftime_Ym t)]) <$> (Fecha <$> rows)))
    (ObjectCol ((fun x => [Num ".2e" x]) <$> (NO2 <$> rows)))
    (ObjectCol ((fun x => [Num ".2f" x]) <$> (T21 <$> rows)))
  = display_frame rows.
Proof. unfold display_frame. by rewrite <- !list_fmap_compose. Qed.

(** The table view: the formatted table is a new object, the loaded
    one is left as it was. *)
Lemma data_table_run rows df s :
  heap s !! df = Some (OFrame (frame_of_rows rows)) ->
  df < next_id s ->
  data_table (Some df) s =
  (Ok (),
   mkState (cache s)
     (<[next_id s := OFrame (display_frame rows)]> (heap s))
     (S (next_id s))
     (page s ++ [([Tab 2; Expander], Table (display_frame rows))])).
Proof.
  intros Hdf Hlt. unfold data_table, frame_copy, mbind, M_bind.
  rewrite (get_frame_run _ _ _ Hdf). cbv beta iota.
  unfold new_object. cbv beta iota.
  erewrite get_frame_run by (cbn [heap]; apply lookup_insert_eq).
  cbn [frame_of_rows col_Fecha col_NO2 col_T21 dt_strftime_Ym lift].
  unfold mret, M_ret, set_frame. cbv beta iota. cbn [cache heap next_id page].
  rewrite insert_insert_eq.
  erewrite get_frame_run by (cbn [heap]; apply lookup_insert_eq).
  cbn [col_Fecha col_NO2 col_T21 apply_format lift].
  unfold mret, M_ret. cbv beta iota. cbn [cache heap next_id page].
  rewrite insert_insert_eq.
  erewrite get_frame_run by (cbn [heap]; apply lookup_insert_eq).
  cbn [col_Fecha col_NO2 col_T21 apply_format lift].
  unfold mret, M_ret. cbv beta iota. cbn [cache heap next_id page].
  rewrite insert_insert_eq.
  erewrite get_frame_run by (cbn [heap]; apply lookup_insert_eq).
  cbv beta iota.
  rewrite emit_run. unfold emitted. cbn [cache heap next_id page].
  by rewrite display_frame_columns.
Qed.

Lemma stable_refl s : stable (cache s) (heap s) (next_id s) s.
Proof. by repeat split. Qed.

Lemma render_frame fs inp theme df error s :
  let s' := (render resize corr polyfit fs inp theme df error s).2 in
  cache s' = cache s /\
  forall l, l < next_id s -> heap s' !! l = heap s !! l.
Proof.
  pose proof (hoare_final _ _ s
                (keeps_render (cache s) (heap s) (next_id s)
                   fs inp theme df error) (stable_refl s)) as (Hc & _ & Hh).
  by split.
Qed.

(** The script from the binding of [df] and [metadata] on. *)
Lemma after_load_frame fs inp theme v s1 :
  cache s1 = Some v -> heap s1 = ∅ -> next_id s1 = 0 ->
  let s := ((new_object_opt (OFrame ∘ frame_of_rows <$> v.1.1) ≫= fun df =>
             new_object_opt (ODict <$> v.1.2) ≫= fun metadata =>
             render resize corr polyfit fs inp theme df v.2) s1).2 in
  cache s = Some v /\
  forall rows meta, v.1.1 = Some rows -> v.1.2 = Some meta ->
    heap s !! 0 = Some (OFrame (frame_of_rows rows)) /\
    heap s !! 1 = Some (ODict meta).
Proof.
  intros Hc Hh Hn. destruct v as [[[rows'|] [meta'|]] error];
    cbn [fst snd fmap option_fmap option_map compose];
    unfold new_object_opt, new_object, mbind, M_bind, mret, M_ret;
    cbv beta iota; rewrite ?Hh, ?Hn;
    match goal with
    | |- context [ render _ _ _ _ _ ?th ?df ?er ?s2 ] =>
        pose proof (render_frame fs inp th df er s2) as [Hc' Hh']
    end;
    cbv zeta in *;
    (split; [exact (eq_trans Hc' Hc)|]); intros rows meta ? ?; simplify_eq.
  split.
  - etrans; [apply Hh'; simpl; lia|]. simpl.
    rewrite lookup_insert_ne by done. apply lookup_insert_eq.
  - etrans; [apply Hh'; simpl; lia|]. simpl. apply lookup_insert_eq.
Qed.

Lemma run_frame fs inp memo rows meta err :
  let s := (run resize corr polyfit fs inp memo).2 in
  cache s = Some (Some rows, Some meta, err) ->
  heap s !! 0 = Some (OFrame (frame_of_rows rows)) /\
  heap s !! 1 = Some (ODict meta).
Proof.
  unfold run, script.
  erewrite bind_ok by apply styles_run.
  unfold mbind at 1, M_bind at 1, st_cache_data.
  cbn [cache emitted].
  destruct memo as [v|]; [|destruct (load_data fs) as [e|v]]; cbv beta iota.
  - match goal with
    | |- context [ (mbind _ _) ?s1 ] =>
        pose proof (after_load_frame fs inp (theme_selector inp) v s1
                      eq_refl eq_refl eq_refl) as [Hc Hh]
    end.
    cbv zeta in *. intros Hs. rewrite Hc in Hs. simplify_eq.
    by apply Hh.
  - cbv zeta. cbn [snd cache]. done.
  - match goal with
    | |- context [ (mbind _ _) ?s1 ] =>
        pose proof (after_load_frame fs inp (theme_selector inp) v s1
                      eq_refl eq_refl eq_refl) as [Hc Hh]
    end.
    cbv zeta in *. intros Hs. rewrite Hc in Hs. simplify_eq.
    by apply Hh.
Qed.

(** C7: a call of [load_data] that finds a memoised result returns it
    without looking at the files, a call that finds none stores what the
    body returns, so the files are read once; from then on no statement
    of the script changes the memo table or an object that exists when
    rendering starts.  The table view formats a new object and leaves
    the loaded table as it was; at the end of a run [df] and [metadata]
    still hold the loaded values. *)
Theorem loaded_data_is_read_once_and_kept fs inp :
  (forall fs' v s, cache s = Some v ->
     st_cache_data (load_data fs') s = (Ok v, s)) /\
  (forall v s, cache s = None -> load_data fs = inr v ->
     st_cache_data (load_data fs) s
     = (Ok v, mkState (Some v) (heap s) (next_id s) (page s))) /\
  (forall theme df error s,
     let s' := (render resize corr polyfit fs inp theme df error s).2 in
     cache s' = cache s /\
     forall l, l < next_id s -> heap s' !! l = heap s !! l) /\
  (forall rows df s,
     heap s !! df = Some (OFrame (frame_of_rows rows)) -> df < next_id s ->
     exists s',
       data_table (Some df) s = (Ok (), s') /\
       heap s' !! df = Some (OFrame (frame_of_rows rows)) /\
       heap s' !! next_id s = Some (OFrame (display_frame rows)) /\
       page s' = page s ++ [([Tab 2; Expander], Table (display_frame rows))]) /\
  (forall memo rows meta err,
     let s := (run resize corr polyfit fs inp memo).2 in
     cache s = Some (Some rows, Some meta, err) ->
     heap s !! 0 = Some (OFrame (frame_of_rows rows)) /\
     heap s !! 1 = Some (ODict meta)).
Proof.
  split; [|split; [|split; [|split]]].
  - intros fs' v s Hc. unfold st_cache_data. by rewrite Hc.
  - intros v s Hc Hl. unfold st_cache_data. by rewrite Hc, Hl.
  - intros. apply render_frame.
  - intros rows df s Hdf Hlt. eexists. split; [by apply data_table_run|].
    cbn [heap page]. split; [|split; [|done]].
    + rewrite lookup_insert_ne by lia. done.
    + apply lookup_insert_eq.
  - intros memo rows meta err s Hs. by apply (run_frame fs inp memo rows meta err).
Qed.

End FrameFacts.

Lemma loaded_data_is_read_once_and_kept_witness :
  let s := (Demo.run Demo.fs Demo.inputs None).2 in
  cache s = Some (Some Demo.rows, Some Demo.metadata, None) /\
  heap s !! 0 = Some (OFrame (frame_of_rows Demo.rows)) /\
  heap s !! 1 = Some (ODict Demo.metadata).
Proof.
  split; [reflexivity|].
  apply (proj2 (proj2 (proj2 (proj2
           (loaded_data_is_read_once_and_kept Demo.resize
              Pearson.corr_binary64 Polyfit.polyfit_binary64 Demo.fs Demo.inputs))))
           None Demo.rows Demo.metadata None).
  reflexivity.
Defined.

(** ** The map view with a raster missing *)

Section MapFacts.

Variable resize : PIL.Image -> nat * nat -> PIL.Image.
Variable corr : list float -> list float -> float.
Variable polyfit : list float -> list float -> Exn + list float.

Lemma normpath_image_path var m :
  normpath (image_path var m) = image_path var m.
Proof. reflexivity. Qed.

Lemma missing_true fs var m :
  missing fs var m = true <-> fs !! image_path var m = None.
Proof. unfold missing. by rewrite bool_decide_eq_true. Qed.

Lemma exists_image fs var m :
  exists_ fs (image_path var m) = negb (missing fs var m).
Proof.
  unfold exists_, missing. rewrite normpath_image_path.
  destruct (fs !! image_path var m) as [f|] eqn:E.
  - rewrite bool_decide_eq_true_2 by eauto.
    by rewrite bool_decide_eq_false_2.
  - rewrite bool_decide_eq_false_2 by (by intros [??]).
    by rewrite bool_decide_eq_true_2.
Qed.





Lemma errors_app pg1 pg2 : errors (pg1 ++ pg2) = errors pg1 ++ errors pg2.
Proof. apply omap_app. Qed.

Lemma pictures_app pg1 pg2 :
  pictures (pg1 ++ pg2) = pictures pg1 ++ pictures pg2.
Proof. apply omap_app. Qed.




Lemma st_cache_data_loads fs memo v s :
  cache s = memo -> loads fs memo v ->
  st_cache_data (load_data fs) s
  = (Ok v, mkState (Some v) (heap s) (next_id s) (page s)).
Proof.
  intros Hc Hl. unfold st_cache_data. rewrite Hc.
  destruct Hl as [->|[-> ->]]; [|done]. by destruct s; simplify_eq/=.
Qed.



End MapFacts.



(** * Further properties of the code *)

(** ** The overlay, layer by layer *)

Section OverlayLayers.
Import PIL.
Local Open Scope Z_scope.

Variable resize : Image -> nat * nat -> Image.
Hypothesis resize_size : forall im sz, size (resize im sz) = sz.
Hypothesis resize_valid :
  forall im sz, valid_image im = true -> valid_image (resize im sz) = true.

Lemma valid_pixel_alpha p : valid_pixel p = true -> 0 <= alpha p < 256.
Proof.
  unfold valid_pixel. intros [_ H]%andb_prop. by apply valid_channel_range.
Qed.

Lemma valid_pixel_with_alpha p a :
  valid_pixel p = true ->
  valid_pixel (RGBA (red p) (green p) (blue p) (CLIP8 a)) = true.
Proof.
  unfold valid_pixel; simpl. intros [-> _]%andb_prop. simpl.
  pose proof (CLIP8_range a). unfold valid_channel.
  apply andb_true_intro. split; [apply Z.leb_le|apply Z.ltb_lt]; lia.
Qed.

(** Over an opaque pixel every source pixel leaves an opaque pixel. *)
Lemma composite_pixel_alpha_opaque dst src :
  valid_pixel src = true -> alpha dst = 255 ->
  alpha (composite_pixel dst src) = 255.
Proof.
  intros Hs Hd. apply valid_pixel_alpha in Hs.
  unfold composite_pixel. destruct (alpha src =? 0) eqn:E; [done|].
  cbv zeta. cbn [alpha]. rewrite Hd.
  assert (Hall : forallb
            (fun n => let a := Z.of_nat n in
               UINT8 (SHIFTFORDIV255
                        (UINT32 (UINT32 (a * 255 + UINT32 (255 * (255 - a)))
                                 + 128))) =? 255)
            (seq 0 256) = true) by (vm_compute; reflexivity).
  rewrite forallb_forall in Hall.
  specialize (Hall (Z.to_nat (alpha src))). cbv zeta in Hall.
  rewrite Z2Nat.id in Hall by lia.
  apply Z.eqb_eq, Hall, in_seq. lia.
Qed.

Lemma overlay_pixel_valid_opaque a1 a2 p q :
  valid_pixel p = true -> valid_pixel q = true ->
  valid_pixel (overlay_pixel a1 a2 p q) = true /\
  alpha (overlay_pixel a1 a2 p q) = 255.
Proof.
  intros Hp Hq. unfold overlay_pixel. split.
  - by do 2 apply composite_pixel_valid.
  - apply composite_pixel_alpha_opaque; [by apply valid_pixel_with_alpha|].
    apply composite_pixel_alpha_opaque; [by apply valid_pixel_with_alpha|done].
Qed.

Lemma zip_with_overlay_valid_opaque a1 a2 d1 d2 :
  Forall (fun p => valid_pixel p = true) d1 ->
  Forall (fun p => valid_pixel p = true) d2 ->
  Forall (fun p => valid_pixel p = true /\ alpha p = 255)
    (zip_with (overlay_pixel a1 a2) d1 d2).
Proof.
  revert d2. induction d1 as [|p d1 IH]; intros [|q d2] Hp1 Hp2;
    simpl; try constructor.
  - apply overlay_pixel_valid_opaque;
      [exact (Forall_inv Hp1)|exact (Forall_inv Hp2)].
  - apply IH; [exact (Forall_inv_tail Hp1)|exact (Forall_inv_tail Hp2)].
Qed.

(** X1: whatever the two opacities, the composite the overlay view
    displays is a well-formed RGBA raster whose pixels are all fully
    opaque: the white base never shows through as transparency. *)
Theorem overlay_is_valid_and_opaque img_no2 img_t21 o1 o2 a1 a2 bm :
  valid_image img_no2 = true -> valid_image img_t21 = true ->
  alpha_of_opacity o1 = Some a1 -> alpha_of_opacity o2 = Some a2 ->
  exists result,
    overlay resize img_no2 img_t21 o1 o2 bm = Some result /\
    valid_image result = true /\ opaque result = true.
Proof using resize_size resize_valid.
  intros H1 H2 Ha1 Ha2. eexists. split; [by apply overlay_unfold|].
  pose proof (same_size_length resize resize_size resize_valid _ _ H1 H2)
    as Hlen.
  pose proof (valid_image_pixels _ H1) as Hp1.
  pose proof (valid_image_pixels _ (same_size_valid resize resize_valid
                                      img_no2 _ H2)) as Hp2.
  pose proof (zip_with_overlay_valid_opaque a1 a2 _ _ Hp1 Hp2) as Hall.
  split.
  - apply valid_image_intro; simpl.
    + rewrite length_zip_with, Hlen, Nat.min_id.
      by apply valid_image_length.
    + eapply Forall_impl; [exact Hall|]. by intros ? [? ?].
  - unfold opaque. simpl. apply forallb_forall. intros p Hp.
    rewrite Forall_forall in Hall.
    apply list_elem_of_In, Hall in Hp as [_ ->]. done.
Qed.

Lemma zip_with_overlay_t21_only a1 d1 d2 :
  length d1 = length d2 ->
  Forall (fun q => valid_pixel q = true) d2 ->
  zip_with (overlay_pixel a1 255) d1 d2 =
  (fun q => RGBA (red q) (green q) (blue q) (CLIP8 255)) <$> d2.
Proof.
  revert d2. induction d1 as [|p d1 IH]; intros [|q d2] Hlen Hall;
    simplify_eq/=; [done|].
  apply Forall_cons in Hall as [Hq Hall].
  csimpl. f_equal; [|by apply IH].
  unfold overlay_pixel. apply composite_pixel_opaque; [|done].
  by apply (valid_pixel_with_alpha q 255).
Qed.

Lemma zip_with_overlay_none d1 d2 :
  length d1 = length d2 ->
  zip_with (overlay_pixel 0 0) d1 d2 = replicate (length d1) white.
Proof.
  revert d2. induction d1 as [|p d1 IH]; intros [|q d2] Hlen;
    simplify_eq/=; [done|].
  rewrite IH by done. f_equal.
Qed.

(** X2: the T21 layer lies on top.  With its opacity at 1.0 the overlay
    is the T21 raster (resized to the NO2 size when the sizes differ)
    made opaque, whatever the NO2 raster and its opacity; with both
    opacities at 0.0 the overlay is the white base. *)
Theorem overlay_t21_on_top img_no2 img_t21 o1 a1 bm :
  valid_image img_no2 = true -> valid_image img_t21 = true ->
  alpha_of_opacity o1 = Some a1 ->
  overlay resize img_no2 img_t21 o1 1 bm
  = Some (putalpha (same_size resize img_no2 img_t21) 255) /\
  overlay resize img_no2 img_t21 0 0 bm = Some (new (size img_no2) white).
Proof using resize_size resize_valid.
  intros H1 H2 Ha1.
  pose proof (same_size_length resize resize_size resize_valid _ _ H1 H2)
    as Hlen.
  pose proof (same_size_size resize resize_size img_no2 img_t21) as Hsz.
  split.
  - rewrite (overlay_unfold resize resize_size _ _ _ _ a1 255) by done.
    rewrite zip_with_overlay_t21_only;
      [|done|by apply valid_image_pixels, same_size_valid].
    unfold putalpha. unfold size in Hsz. by injection Hsz as -> ->.
  - rewrite (overlay_unfold resize resize_size _ _ _ _ 0 0) by done.
    rewrite zip_with_overlay_none by done.
    unfold new. simpl. by rewrite (valid_image_length _ H1).
Qed.

End OverlayLayers.

Lemma overlay_is_valid_and_opaque_witness :
  exists result,
    overlay Demo.resize Demo.img_no2 Demo.img_small 0.5 0.5 Normal
    = Some result /\
    PIL.valid_image result = true /\ PIL.opaque result = true.
Proof.
  apply (overlay_is_valid_and_opaque Demo.resize Demo_resize_size
           Demo_resize_valid Demo.img_no2 Demo.img_small 0.5 0.5 127 127
           Normal); reflexivity.
Defined.

Lemma overlay_t21_on_top_witness :
  overlay Demo.resize Demo.img_no2 Demo.img_t21 0.5 1 Normal
  = Some (PIL.mkImage 2 1 [PIL.RGBA 255 0 0 255; PIL.RGBA 0 0 255 255]) /\
  overlay Demo.resize Demo.img_no2 Demo.img_t21 0 0 Normal
  = Some (PIL.new (2, 1) PIL.white).
Proof.
  destruct (overlay_t21_on_top Demo.resize Demo_resize_size
              Demo_resize_valid Demo.img_no2 Demo.img_t21 0.5 127
              Normal) as [Ht Hw]; [reflexivity..|].
  split; [rewrite Ht|rewrite Hw]; reflexivity.
Defined.

(** ** The loader and its memo table *)

(** X3: [load_data] returns all or nothing.  It returns the table and
    the metadata with no error exactly when both files are read; it
    returns no values and the message when the CSV is absent, or is read
    and the metadata file is absent; otherwise it raises an exception,
    which is never [FileNotFoundError]. *)
Theorem load_data_all_or_nothing (fs : FileSystem) :
  match load_data fs with
  | inr (Some df, Some metadata, None) =>
      fs !! "datos_no2_t21.csv" = Some (CsvFile df) /\
      fs !! "metadata.json" = Some (JsonFile metadata)
  | inr (None, None, Some error) =>
      error = error_msg /\
      (fs !! "datos_no2_t21.csv" = None \/
       (exists rows, fs !! "datos_no2_t21.csv" = Some (CsvFile rows)) /\
       fs !! "metadata.json" = None)
  | inr _ => False
  | inl e =>
      e <> FileNotFoundError /\
      ((exists f, fs !! "datos_no2_t21.csv" = Some f /\
                  forall rows, f <> CsvFile rows) \/
       (exists f, fs !! "metadata.json" = Some f /\
                  forall meta, f <> JsonFile meta))
  end.
Proof.
  unfold load_data, read_csv, json_load.
  change (normpath csv_path) with "datos_no2_t21.csv".
  change (normpath metadata_path) with "metadata.json".
  destruct (fs !! "datos_no2_t21.csv") as [[rows|meta|img|]|] eqn:Hcsv;
    try (split; [done|left; eexists; split; [done|done]]);
    [|by split; [|left]].
  destruct (fs !! "metadata.json") as [[rows'|meta|img|]|] eqn:Hmeta;
    try (split; [done|right; eexists; split; [done|done]]);
    [done|].
  split; [done|]. right. split; [by eexists|done].
Qed.

Section MemoFacts.

Variable resize : PIL.Image -> nat * nat -> PIL.Image.
Variable corr : list float -> list float -> float.
Variable polyfit : list float -> list float -> Exn + list float.

Lemma run_memoised_error fs inp :
  run resize corr polyfit fs inp (Some (None, None, Some error_msg)) =
  (Stop,
   mkState (Some (None, None, Some error_msg)) ∅ 0
     (styles_page inp ++ error_page error_msg)).
Proof.
  unfold run, script.
  erewrite bind_ok by apply styles_run.
  unfold st_cache_data. unfold mbind at 1, M_bind at 1.
  cbn [cache emitted]. cbv beta iota zeta.
  cbn [fst snd fmap option_fmap option_map].
  unfold new_object_opt. mstep.
  unfold render. rewrite error_msg_truthy.
  mstep. unfold st_stop. cbv beta iota. reflexivity.
Qed.

Lemma run_first_error fs inp :
  load_data fs = inr (None, None, Some error_msg) ->
  run resize corr polyfit fs inp None =
  (Stop,
   mkState (Some (None, None, Some error_msg)) ∅ 0
     (styles_page inp ++ error_page error_msg)).
Proof.
  intros Hload. unfold run, script.
  erewrite bind_ok by apply styles_run.
  unfold st_cache_data. unfold mbind at 1, M_bind at 1.
  cbn [cache emitted]. rewrite Hload. cbv beta iota zeta.
  cbn [fst snd fmap option_fmap option_map].
  unfold new_object_opt. mstep.
  unfold render. rewrite error_msg_truthy.
  mstep. unfold st_stop. cbv beta iota. reflexivity.
Qed.

(** X4: the error is memoised like any other result.  After a run that
    found the CSV absent (or the CSV readable and the metadata absent),
    every later run halts on the same three messages whatever files are
    on disk by then, for instance after the download script was run. *)
Theorem error_result_is_memoised fs1 inp1 fs2 inp2 :
  fs1 !! "datos_no2_t21.csv" = None \/
  ((exists rows, fs1 !! "datos_no2_t21.csv" = Some (CsvFile rows)) /\
   fs1 !! "metadata.json" = None) ->
  run resize corr polyfit fs2 inp2 (cache (run resize corr polyfit fs1 inp1 None).2) =
  (Stop,
   mkState (Some (None, None, Some error_msg)) ∅ 0
     (styles_page inp2 ++ error_page error_msg)).
Proof.
  intros Hfs. rewrite (run_first_error fs1 inp1 (load_data_missing fs1 Hfs)).
  cbn [snd cache]. apply run_memoised_error.
Qed.

(** X5: an exception of [load_data] is not caught and not memoised: the
    run ends with that exception, with the theme selector and the style
    sheet alone on the page and the memo table still empty, so that the
    next run calls the body again. *)
Theorem exception_is_not_memoised fs inp e :
  load_data fs = inl e ->
  run resize corr polyfit fs inp None =
    (Raise e, mkState None ∅ 0 (styles_page inp)) /\
  forall s, cache s = None ->
    st_cache_data (load_data fs) s = (Raise e, s).
Proof.
  intros Hload. split.
  - unfold run, script.
    erewrite bind_ok by apply styles_run.
    unfold st_cache_data. unfold mbind at 1, M_bind at 1.
    cbn [cache emitted]. by rewrite Hload.
  - intros s Hs. unfold st_cache_data. by rewrite Hs, Hload.
Qed.

End MemoFacts.

Lemma error_result_is_memoised_witness :
  Demo.fs !! "datos_no2_t21.csv" = Some (CsvFile Demo.rows) /\
  Demo.run Demo.fs Demo.inputs
    (cache (Demo.run Demo.fs_removed Demo.inputs_feb None).2) =
  (Stop,
   mkState (Some (None, None, Some error_msg)) ∅ 0
     (styles_page Demo.inputs ++ error_page error_msg)).
Proof.
  split; [reflexivity|].
  apply (error_result_is_memoised Demo.resize Pearson.corr_binary64 Polyfit.polyfit_binary64
           Demo.fs_removed Demo.inputs_feb Demo.fs Demo.inputs).
  left. reflexivity.
Defined.

Lemma exception_is_not_memoised_witness :
  run Demo.resize Pearson.corr_binary64 Polyfit.polyfit_binary64
    (<["datos_no2_t21.csv" := Directory]> Demo.fs) Demo.inputs None =
  (Raise IsADirectoryError, mkState None ∅ 0 (styles_page Demo.inputs)).
Proof.
  apply (exception_is_not_memoised Demo.resize Pearson.corr_binary64 Polyfit.polyfit_binary64
           (<["datos_no2_t21.csv" := Directory]> Demo.fs) Demo.inputs
           IsADirectoryError).
  reflexivity.
Defined.

(** ** The month selector *)

Lemma ascii_compare_refl a : Ascii.compare a a = Eq.
Proof. unfold Ascii.compare. apply N.compare_refl. Qed.

Lemma ascii_compare_lt_trans a b c :
  Ascii.compare a b = Lt -> Ascii.compare b c = Lt -> Ascii.compare a c = Lt.
Proof.
  unfold Ascii.compare. rewrite !N.compare_lt_iff. apply N.lt_trans.
Qed.

Lemma string_compare_lt_trans a b c :
  String.compare a b = Lt -> String.compare b c = Lt -> String.compare a c = Lt.
Proof.
  revert b c. induction a as [|x a IH]; intros [|y b] [|z c]; simpl; try done.
  destruct (Ascii.compare x y) eqn:Hxy; [|clear IH|done].
  - apply Ascii.compare_eq_iff in Hxy as ->.
    destruct (Ascii.compare y z); [apply IH|done..].
  - destruct (Ascii.compare y z) eqn:Hyz; [| |done].
    + apply Ascii.compare_eq_iff in Hyz as <-. by rewrite Hxy.
    + by rewrite (ascii_compare_lt_trans x y z).
Qed.

Lemma str_le_compare a b : str_le a b <-> String.compare a b <> Gt.
Proof. unfold str_le, String.leb. by destruct (String.compare a b). Qed.

Lemma str_le_total : Total str_le.
Proof. intros a b. apply String.leb_total. Qed.

Lemma str_le_trans : Transitive str_le.
Proof.
  intros a b c. rewrite !str_le_compare. intros Hab Hbc.
  destruct (String.compare a b) eqn:H1; [| |done].
  - by apply String.compare_eq_iff in H1 as ->.
  - destruct (String.compare b c) eqn:H2; [| |done].
    + apply String.compare_eq_iff in H2 as <-. by rewrite H1.
    + by rewrite (string_compare_lt_trans a b c).
Qed.

Lemma NoDup_unique l : NoDup (unique l).
Proof.
  induction l as [|x l IH]; simpl; [constructor|].
  constructor; [|by apply NoDup_filter].
  rewrite list_elem_of_filter. tauto.
Qed.

Lemma digit_compare a b :
  a < 10 -> b < 10 ->
  Ascii.compare (ascii_of_nat (48 + a)) (ascii_of_nat (48 + b)) = Nat.compare a b.
Proof.
  intros Ha Hb.
  do 10 (destruct a as [|a]; [do 10 (destruct b as [|b]; [reflexivity|]); lia|]).
  lia.
Qed.

Lemma year_digits y :
  y / 1000 < 10 ->
  y = 1000 * ((y / 1000) mod 10) + 100 * ((y / 100) mod 10)
      + 10 * ((y / 10) mod 10) + y mod 10.
Proof.
  intros Hy.
  pose proof (Nat.div_mod_eq y 10) as H0.
  pose proof (Nat.div_mod_eq (y / 10) 10) as H1.
  pose proof (Nat.div_mod_eq (y / 100) 10) as H2.
  rewrite Nat.Div0.div_div in H1, H2.
  change (10 * 10) with 100 in H1. change (100 * 10) with 1000 in H2.
  rewrite (Nat.mod_small (y / 1000)) by done. lia.
Qed.

Lemma month_digits m : m < 100 -> m = 10 * ((m / 10) mod 10) + m mod 10.
Proof.
  intros Hm. pose proof (Nat.div_mod_eq m 10) as H0.
  rewrite (Nat.mod_small (m / 10)); [lia|].
  apply Nat.Div0.div_lt_upper_bound. lia.
Qed.

Lemma strftime_Ym_compare t1 t2 :
  year t1 / 1000 < 10 -> year t2 / 1000 < 10 -> month t1 < 100 -> month t2 < 100 ->
  String.compare (strftime_Ym t1) (strftime_Ym t2) =
  Nat.compare (year t1 * 100 + month t1) (year t2 * 100 + month t2).
Proof.
  intros Hy1 Hy2 Hm1 Hm2. unfold strftime_Ym, digit.
  cbv [String.append]. cbn [String.compare].
  rewrite !digit_compare by (apply Nat.mod_upper_bound; lia).
  change (Ascii.compare "-" "-") with Eq. cbv iota.
  pose proof (year_digits (year t1) Hy1) as Ey1.
  pose proof (year_digits (year t2) Hy2) as Ey2.
  pose proof (month_digits (month t1) Hm1) as Em1.
  pose proof (month_digits (month t2) Hm2) as Em2.
  pose proof (fun n => Nat.mod_upper_bound n 10 ltac:(lia)) as Hlt.
  pose proof (Hlt (year t1 / 100)). pose proof (Hlt (year t1 / 10)).
  pose proof (Hlt (year t1)). pose proof (Hlt (month t1)).
  pose proof (Hlt (year t2 / 100)). pose proof (Hlt (year t2 / 10)).
  pose proof (Hlt (year t2)). pose proof (Hlt (month t2)).
  pose proof (Hlt (year t1 / 1000)). pose proof (Hlt (year t2 / 1000)).
  pose proof (Hlt (month t1 / 10)). pose proof (Hlt (month t2 / 10)).
  clear Hlt. symmetry.
  repeat match goal with
         | |- context [match Nat.compare ?a ?b with _ => _ end] =>
             destruct (Nat.compare_spec a b)
         end;
    first [ apply Nat.compare_eq_iff | apply Nat.compare_lt_iff
          | apply Nat.compare_gt_iff ]; lia.
Qed.

Lemma str_le_refl : Reflexive str_le.
Proof. intros a. by destruct (str_le_total a a). Qed.

Lemma StronglySorted_last {A} (R : relation A) `{!Reflexive R} l x y :
  StronglySorted R l -> last l = Some x -> y ∈ l -> R y x.
Proof.
  intros Hl [l' ->]%last_Some [Hy|Hy%list_elem_of_singleton]%elem_of_app.
  - eapply StronglySorted_app_1_elem_of; [done..|]. by left.
  - by subst.
Qed.

Lemma available_months_nonempty rows :
  rows <> [] -> available_months rows <> [].
Proof.
  destruct rows as [|r rows]; [done|]. intros _ Hnil.
  assert (strftime_Ym (Fecha r) ∈ available_months (r :: rows)) as Hin.
  { apply elem_of_available_months. exists r. split; [by left|done]. }
  rewrite Hnil in Hin. by apply elem_of_nil in Hin.
Qed.

Lemma st_selectbox_default options state :
  options <> [] ->
  exists m,
    st_selectbox options (Z.of_nat (length options) - 1) state = Some m /\
    m ∈ options /\
    (state = Some m \/ last options = Some m).
Proof.
  intros Hne.
  assert (exists m, last options = Some m) as [m Hm].
  { destruct (last options) eqn:E; [by eexists|].
    by apply last_None in E. }
  assert (m ∈ options) as Hin.
  { apply last_Some in Hm as [l' ->]. apply elem_of_app. right. by left. }
  assert ((if (0 <=? Z.of_nat (length options) - 1)%Z
           then options !! Z.to_nat (Z.of_nat (length options) - 1)
           else None) = Some m) as Hdef.
  { destruct options as [|o options]; [done|].
    rewrite (proj2 (Z.leb_le _ _)) by (simpl; lia).
    rewrite last_lookup in Hm. rewrite <- Hm. f_equal. simpl. lia. }
  unfold st_selectbox. rewrite Hdef.
  destruct state as [v|]; [|by eauto].
  case_bool_decide; eauto.
Qed.

(** X6: the selector offers every month of the table exactly once, in
    ascending order of the strings, and nothing else. *)
Theorem available_months_sorted_nodup rows :
  NoDup (available_months rows) /\
  StronglySorted str_le (available_months rows) /\
  forall m, m ∈ available_months rows <->
            exists r, r ∈ rows /\ strftime_Ym (Fecha r) = m.
Proof.
  split; [|split].
  - unfold available_months, sorted.
    rewrite merge_sort_Permutation. apply NoDup_unique.
  - apply StronglySorted_merge_sort; [apply str_le_trans|apply str_le_total].
  - intros m. apply elem_of_available_months.
Qed.

(** X7: for years of at most four digits and months of at most two, the
    order of the [%Y-%m] strings is the order of the dates by year and
    then month, and two dates give the same string exactly when they lie
    in the same month of the same year. *)
Theorem strftime_Ym_chronological t1 t2 :
  year t1 / 1000 < 10 -> year t2 / 1000 < 10 ->
  month t1 < 100 -> month t2 < 100 ->
  (str_le (strftime_Ym t1) (strftime_Ym t2) <->
   year t1 < year t2 \/ (year t1 = year t2 /\ month t1 <= month t2)) /\
  (strftime_Ym t1 = strftime_Ym t2 <->
   year t1 = year t2 /\ month t1 = month t2).
Proof.
  intros Hy1 Hy2 Hm1 Hm2.
  pose proof (strftime_Ym_compare t1 t2 Hy1 Hy2 Hm1 Hm2) as Hcmp.
  split.
  - rewrite str_le_compare, Hcmp.
    destruct (Nat.compare_spec (year t1 * 100 + month t1)
                (year t2 * 100 + month t2)); split; try done; lia.
  - split.
    + intros Heq. rewrite Heq in Hcmp.
      assert (String.compare (strftime_Ym t2) (strftime_Ym t2) = Eq) as HEq.
      { pose proof (String.compare_antisym (strftime_Ym t2) (strftime_Ym t2)).
        by destruct (String.compare (strftime_Ym t2) (strftime_Ym t2)). }
      rewrite HEq in Hcmp. symmetry in Hcmp.
      apply Nat.compare_eq_iff in Hcmp. lia.
    + intros [Hy Hm]. unfold strftime_Ym. by rewrite Hy, Hm.
Qed.

Lemma strftime_Ym_chronological_witness :
  str_le (strftime_Ym (mkTimestamp 2023 12 1))
         (strftime_Ym (mkTimestamp 2024 1 1)) <->
  2023 < 2024 \/ (2023 = 2024 /\ 12 <= 1).
Proof.
  apply (strftime_Ym_chronological (mkTimestamp 2023 12 1)
           (mkTimestamp 2024 1 1)); simpl; lia.
Defined.

(** X8: on a table with at least one row the block of controls never
    fails, whatever the widget state.  It returns a month the selector
    offers: the month in the widget state when that is one of the
    options, the last option otherwise; and it shows the metrics of the
    first row of that month. *)
Theorem controls_succeed_on_nonempty_table rows inp df s :
  heap s !! df = Some (OFrame (frame_of_rows rows)) ->
  rows <> [] ->
  exists m i cur deltas,
    controls (Some df) inp s =
      (Ok m, emitted s (controls_page rows cur deltas)) /\
    m ∈ available_months rows /\
    (month_selector inp = Some m \/ last (available_months rows) = Some m) /\
    (forall v, month_selector inp = Some v ->
               v ∈ available_months rows -> m = v) /\
    first_match rows m = Some (i, cur).
Proof.
  intros Hdf Hne.
  destruct (st_selectbox_default (available_months rows) (month_selector inp)
              (available_months_nonempty rows Hne)) as (m & Hsel & Hin & Hm).
  destruct (available_months_first_match m rows Hin) as [[i cur] Hfind].
  exists m, i, cur. eexists. split; [by eapply controls_run|].
  repeat split; [done..| |done].
  intros v Hv Hvin. rewrite Hv, st_selectbox_offered in Hsel by done.
  congruence.
Qed.

Lemma controls_succeed_on_nonempty_table_witness :
  exists m i cur deltas,
    controls (Some 0) Demo.inputs Demo.state =
      (Ok m, emitted Demo.state (controls_page Demo.rows cur deltas)) /\
    m ∈ available_months Demo.rows /\
    (month_selector Demo.inputs = Some m \/
     last (available_months Demo.rows) = Some m) /\
    (forall v, month_selector Demo.inputs = Some v ->
               v ∈ available_months Demo.rows -> m = v) /\
    first_match Demo.rows m = Some (i, cur).
Proof.
  apply (controls_succeed_on_nonempty_table Demo.rows Demo.inputs 0 Demo.state).
  - reflexivity.
  - discriminate.
Defined.

(** X9: on a table without rows the selector has no option and the block
    of controls fails with [IndexError] at [.iloc[0]], with the empty
    selector alone added to the page. *)
Theorem controls_fail_on_empty_table inp df s :
  heap s !! df = Some (OFrame (frame_of_rows [])) ->
  controls (Some df) inp s =
    (Raise IndexError,
     emitted s [([Col 1], Selectbox "Selecciona el mes:" [] (-1))]).
Proof.
  intros Hdf. unfold controls.
  erewrite bind_ok by (by apply read_df_run). cbv beta zeta.
  change (available_months []) with (@nil string).
  assert (st_selectbox [] (Z.of_nat (length (@nil string)) - 1)
            (month_selector inp) = None) as ->.
  { unfold st_selectbox. destruct (month_selector inp); [|done].
    rewrite bool_decide_eq_false_2; [done|]. apply not_elem_of_nil. }
  mstep. reflexivity.
Qed.

Lemma controls_fail_on_empty_table_witness :
  controls (Some 0) Demo.inputs
    (mkState None {[ 0 := OFrame (frame_of_rows []) ]} 1 []) =
    (Raise IndexError,
     mkState None {[ 0 := OFrame (frame_of_rows []) ]} 1
       [([Col 1], Selectbox "Selecciona el mes:" [] (-1))]).
Proof.
  exact (controls_fail_on_empty_table Demo.inputs 0
           (mkState None {[ 0 := OFrame (frame_of_rows []) ]} 1 []) eq_refl).
Defined.

(** X10: with no month in the widget state, as on the first run of a
    session, the month shown is the latest of the table: no row of the
    table is dated in a later month than the row whose metrics are
    shown (years of at most four digits, months of at most two). *)
Theorem default_month_is_latest rows inp df s :
  heap s !! df = Some (OFrame (frame_of_rows rows)) ->
  rows <> [] ->
  month_selector inp = None ->
  (forall r, r ∈ rows -> year (Fecha r) / 1000 < 10 /\ month (Fecha r) < 100) ->
  exists m i cur deltas,
    controls (Some df) inp s =
      (Ok m, emitted s (controls_page rows cur deltas)) /\
    rows !! i = Some cur /\ strftime_Ym (Fecha cur) = m /\
    forall r, r ∈ rows ->
      year (Fecha r) < year (Fecha cur) \/
      (year (Fecha r) = year (Fecha cur) /\
       month (Fecha r) <= month (Fecha cur)).
Proof.
  intros Hdf Hne Hnone Hdates.
  destruct (st_selectbox_default (available_months rows) (month_selector inp)
              (available_months_nonempty rows Hne)) as (m & Hsel & Hin & Hm).
  destruct Hm as [Hm|Hlast]; [congruence|].
  destruct (available_months_first_match m rows Hin) as [[i cur] Hfind].
  exists m, i, cur. eexists. split; [by eapply controls_run|].
  apply first_match_lookup in Hfind as (Hi & Hcur & _).
  split; [done|]. split; [done|]. intros r Hr.
  assert (cur ∈ rows) as Hcurin by (by eapply list_elem_of_lookup_2).
  destruct (Hdates r Hr) as [Hy1 Hm1]. destruct (Hdates cur Hcurin) as [Hy2 Hm2].
  assert (str_le (strftime_Ym (Fecha r)) m) as Hle.
  { eapply (StronglySorted_last str_le (Reflexive0 := str_le_refl));
      [|exact Hlast|].
    - apply StronglySorted_merge_sort; [apply str_le_trans|apply str_le_total].
    - apply elem_of_available_months. by exists r. }
  rewrite <- Hcur, str_le_compare, strftime_Ym_compare in Hle by done.
  destruct (Nat.compare_spec (year (Fecha r) * 100 + month (Fecha r))
              (year (Fecha cur) * 100 + month (Fecha cur))); [lia..|done].
Qed.

Lemma default_month_is_latest_witness :
  exists m i cur deltas,
    controls (Some 0) Demo.inputs Demo.state =
      (Ok m, emitted Demo.state (controls_page Demo.rows cur deltas)) /\
    Demo.rows !! i = Some cur /\ strftime_Ym (Fecha cur) = m /\
    forall r, r ∈ Demo.rows ->
      year (Fecha r) < year (Fecha cur) \/
      (year (Fecha r) = year (Fecha cur) /\
       month (Fecha r) <= month (Fecha cur)).
Proof.
  apply (default_month_is_latest Demo.rows Demo.inputs 0 Demo.state).
  - reflexivity.
  - discriminate.
  - reflexivity.
  - intros r Hr. unfold Demo.rows in Hr.
    repeat (apply elem_of_cons in Hr as [->|Hr]; [simpl; lia|]).
    by apply elem_of_nil in Hr.
Defined.

(** ** The map tab and the widgets *)

Section TabFacts.

Variable resize : PIL.Image -> nat * nat -> PIL.Image.
Variable corr : list float -> list float -> float.
Variable polyfit : list float -> list float -> Exn + list float.

Lemma st_selectbox_elem_of options index state m :
  st_selectbox options index state = Some m -> m ∈ options.
Proof.
  unfold st_selectbox. intros H.
  assert ((if (0 <=? index)%Z then options !! Z.to_nat index else None)
          = Some m -> m ∈ options) as Hdef.
  { destruct (0 <=? index)%Z; [|done]. apply list_elem_of_lookup_2. }
  destruct state as [v|]; [|by apply Hdef].
  case_bool_decide; [by simplify_eq|by apply Hdef].
Qed.


Lemma in_tab_app i pg1 pg2 : in_tab i (pg1 ++ pg2) = in_tab i pg1 ++ in_tab i pg2.
Proof. apply filter_app. Qed.






(** X13: the widgets of the modes that are not shown have no effect.
    Two runs whose widget states agree on the theme, the month and the
    view mode, on the two opacities when the view is the overlay, and on
    the layer when the view is the single layer, give the same result,
    the same page and the same state. *)
Theorem hidden_widgets_have_no_effect fs inp inp' memo :
  theme_selector inp = theme_selector inp' ->
  month_selector inp = month_selector inp' ->
  view_mode inp = view_mode inp' ->
  (view_mode inp = Superposicion ->
   opacity_no2 inp = opacity_no2 inp' /\ opacity_t21 inp = opacity_t21 inp') ->
  (view_mode inp = Individual -> layer_choice inp = layer_choice inp') ->
  run resize corr polyfit fs inp memo = run resize corr polyfit fs inp' memo.
Proof.
  destruct inp as [t ms vm o1 o2 bm l], inp' as [t' ms' vm' o1' o2' bm' l'].
  cbn [theme_selector month_selector view_mode opacity_no2 opacity_t21
       layer_choice].
  intros <- <- <- Hop Hl.
  destruct vm.
  - reflexivity.
  - destruct (Hop eq_refl) as [<- <-]. reflexivity.
  - destruct (Hl eq_refl). reflexivity.
Qed.

Lemma bind_ext {A B} (m : M A) (k k' : A -> M B) s :
  (forall a s', k a s' = k' a s') -> (m ≫= k) s = (m ≫= k') s.
Proof.
  intros H. unfold mbind, M_bind. destruct (m s) as [[a| |e] s']; [apply H|done..].
Qed.

Lemma run_memoised fs inp v :
  run resize corr polyfit fs inp (Some v) =
  (df ← new_object_opt (OFrame ∘ frame_of_rows <$> v.1.1);
   metadata ← new_object_opt (ODict <$> v.1.2);
   render resize corr polyfit fs inp (theme_selector inp) df v.2)
    (mkState (Some v) ∅ 0 (styles_page inp)).
Proof.
  unfold run, script.
  erewrite bind_ok by apply styles_run.
  unfold st_cache_data. unfold mbind at 1, M_bind at 1.
  reflexivity.
Qed.

Section Agree.

Variables fs fs' : FileSystem.
Hypothesis agree : forall p,
  p <> "datos_no2_t21.csv" -> p <> "metadata.json" -> fs !! p = fs' !! p.

Lemma agree_directory : fs !! "monthly_images" = fs' !! "monthly_images".
Proof. by apply agree. Qed.

Lemma agree_image var m : fs !! image_path var m = fs' !! image_path var m.
Proof. by apply agree. Qed.

Lemma tab1_agree inp m : tab1 resize fs inp m = tab1 resize fs' inp m.
Proof.
  unfold tab1, map_view, overlay_view, show_image, exists_, Image_open.
  change (normpath image_dir) with "monthly_images".
  rewrite !normpath_image_path, agree_directory, !agree_image.
  reflexivity.
Qed.

Lemma render_agree inp theme df error s :
  render resize corr polyfit fs inp theme df error s
  = render resize corr polyfit fs' inp theme df error s.
Proof.
  unfold render.
  apply bind_ext; intros _ s1. apply bind_ext; intros _ s2.
  apply bind_ext; intros m s3. by rewrite tab1_agree.
Qed.

(** X14: once [load_data] has a memoised result, the two data files are
    not consulted again: two runs from the same memo table whose
    directories differ only at [datos_no2_t21.csv] and [metadata.json]
    give the same result, the same page and the same state. *)
Theorem memoised_run_ignores_data_files inp v :
  run resize corr polyfit fs inp (Some v) = run resize corr polyfit fs' inp (Some v).
Proof.
  rewrite !run_memoised.
  apply bind_ext; intros df s1. apply bind_ext; intros md s2.
  apply render_agree.
Qed.

End Agree.

End TabFacts.



Lemma hidden_widgets_have_no_effect_witness :
  Demo.run Demo.fs Demo.inputs None =
  Demo.run Demo.fs (mkInputs Claro None LadoALado 0.2 0.9 Pantalla CapaT21) None.
Proof.
  apply (hidden_widgets_have_no_effect Demo.resize
           Pearson.corr_binary64 Polyfit.polyfit_binary64 Demo.fs Demo.inputs
           (mkInputs Claro None LadoALado 0.2 0.9 Pantalla CapaT21) None);
    try reflexivity; discriminate.
Defined.

Lemma memoised_run_ignores_data_files_witness :
  Demo.fs_removed !! "datos_no2_t21.csv" = None /\
  Demo.run Demo.fs Demo.inputs (Some Demo.loaded) =
  Demo.run Demo.fs_removed Demo.inputs (Some Demo.loaded).
Proof.
  split; [reflexivity|].
  apply (memoised_run_ignores_data_files Demo.resize
           Pearson.corr_binary64 Polyfit.polyfit_binary64 Demo.fs Demo.fs_removed).
  intros p Hcsv Hmeta. unfold Demo.fs_removed. symmetry.
  etrans; [apply lookup_delete_ne; congruence|].
  apply lookup_delete_ne; congruence.
Defined.

(** ** The reading of the coefficient *)

Lemma abs_opp c : abs (- c)%float = abs c.
Proof.
  rewrite <- (SF2Prim_Prim2SF (abs (- c))), <- (SF2Prim_Prim2SF (abs c)).
  rewrite !abs_spec, opp_spec. f_equal.
  by destruct (Prim2SF c).
Qed.

(** X15: the reading of the coefficient does not depend on its sign: a
    negative correlation gets the label, colour and description of the
    positive correlation of the same magnitude. *)
Theorem interpret_ignores_sign c : interpret (- c)%float = interpret c.
Proof. unfold interpret. by rewrite abs_opp. Qed.

(** ** Reruns and failures *)

Section RerunFacts.

Variable resize : PIL.Image -> nat * nat -> PIL.Image.
Variable corr : list float -> list float -> float.
Variable polyfit : list float -> list float -> Exn + list float.

Lemma run_fresh fs inp v :
  load_data fs = inr v ->
  run resize corr polyfit fs inp None =
  (df ← new_object_opt (OFrame ∘ frame_of_rows <$> v.1.1);
   metadata ← new_object_opt (ODict <$> v.1.2);
   render resize corr polyfit fs inp (theme_selector inp) df v.2)
    (mkState (Some v) ∅ 0 (styles_page inp)).
Proof.
  intros Hload. unfold run, script.
  erewrite bind_ok by apply styles_run.
  unfold st_cache_data. unfold mbind at 1, M_bind at 1.
  cbn [cache emitted]. by rewrite Hload.
Qed.

(** X16: while the files do not change, memoisation cannot be observed:
    a rerun that starts from the memo table a first run has left, with
    any widget state, gives the result, the page and the state of a run
    that starts with an empty memo table. *)
Theorem rerun_repeats_fresh_run fs inp inp' :
  run resize corr polyfit fs inp' (cache (run resize corr polyfit fs inp None).2)
  = run resize corr polyfit fs inp' None.
Proof.
  destruct (load_data fs) as [e|v] eqn:Hload.
  - unfold run at 2, script.
    erewrite bind_ok by apply styles_run.
    unfold st_cache_data. unfold mbind at 1, M_bind at 1.
    cbn [cache emitted]. by rewrite Hload.
  - rewrite (run_fresh fs inp v Hload), (run_fresh fs inp' v Hload).
    match goal with
    | |- context [ (mbind _ _) ?s1 ] =>
        pose proof (after_load_frame resize corr polyfit fs inp (theme_selector inp)
                      v s1 eq_refl eq_refl eq_refl) as [Hc _]
    end.
    cbv zeta in Hc. rewrite Hc.
    unfold run, script.
    erewrite bind_ok by apply styles_run.
    unfold st_cache_data. unfold mbind at 1, M_bind at 1.
    reflexivity.
Qed.

Lemma run_tab1_raises fs inp memo rows meta m e
    (Good : list (Place * Element) -> Prop) :
  loads fs memo (Some rows, Some meta, None) ->
  selected_month rows inp = Some m ->
  (forall s, exists pg,
      tab1 resize fs inp m s = (Raise e, emitted s pg) /\ Good pg) ->
  exists s cur deltas pg,
    run resize corr polyfit fs inp memo = (Raise e, s) /\ Good pg /\
    (deltas = [] \/ exists d1 d2, deltas = delta_metrics d1 d2) /\
    page s =
      styles_page inp ++ header ++ controls_page rows cur deltas ++ pg.
Proof.
  intros Hloads Hbox Htab1.
  pose proof (st_selectbox_elem_of _ _ _ _ Hbox) as Hm.
  destruct (available_months_first_match _ _ Hm) as [[i cur] Hfind].
  unfold selected_month in Hbox.
  unfold run, script.
  erewrite bind_ok by apply styles_run.
  erewrite bind_ok
    by (apply (st_cache_data_loads fs memo); [reflexivity|exact Hloads]).
  cbn [fst snd fmap option_fmap option_map compose].
  unfold new_object_opt, new_object, mbind at 1 2 3 4, M_bind at 1 2 3 4,
    mret, M_ret.
  cbv beta iota. cbn [cache heap next_id page emitted].
  unfold render. cbn [truthy]. mstep. mstep.
  erewrite controls_run; [|cbn [heap emitted]|exact Hbox|exact Hfind];
    [|rewrite lookup_insert_ne by done; apply lookup_insert_eq].
  cbv beta iota.
  match goal with
  | |- context [ tab1 _ _ _ _ ?s1 ] =>
      destruct (Htab1 s1) as (pg & -> & Hgood)
  end.
  cbv beta iota.
  eexists _, cur, _, pg. split; [reflexivity|]. split; [exact Hgood|].
  split; cycle 1.
  - unfold emitted. cbn [page]. by rewrite <- !app_assoc.
  - destruct i as [|j]; [by left|].
    destruct (rows !! j); [right; eexists _, _; reflexivity|by left].
Qed.

Lemma show_image_unreadable fs pl var m msg e s :
  missing fs var m = false ->
  Image_open fs (image_path var m) = inl e ->
  show_image fs pl (image_path var m) msg s = (Raise e, s).
Proof.
  intros Hmiss He. unfold show_image.
  rewrite exists_image, Hmiss. cbn [negb]. by rewrite He.
Qed.

(** X17: the map view tests that a raster exists, not that it can be
    read.  Side by side, a file at the path of the NO2 raster that is not
    an image makes [Image.open] fail; the exception is not caught, so the
    run ends there: no picture and no error box is shown, and nothing of
    the tabs 2, 3 and 4 is rendered. *)
Theorem unreadable_raster_aborts_run fs inp memo rows meta m f :
  loads fs memo (Some rows, Some meta, None) ->
  selected_month rows inp = Some m ->
  is_Some (fs !! "monthly_images") ->
  view_mode inp = LadoALado ->
  fs !! image_path "no2" m = Some f ->
  (forall img, f <> PngFile img) ->
  exists e s,
    run resize corr polyfit fs inp memo = (Raise e, s) /\
    Image_open fs (image_path "no2" m) = inl e /\
    pictures (page s) = [] /\ errors (page s) = [] /\
    in_tab 2 (page s) = [] /\ in_tab 3 (page s) = [] /\
    in_tab 4 (page s) = [].
Proof.
  intros Hloads Hsel Hdir Hmode Hf Hnot.
  assert (exists e, Image_open fs (image_path "no2" m) = inl e) as [e He].
  { unfold Image_open. rewrite normpath_image_path, Hf.
    destruct f; eauto. by destruct (Hnot img). }
  assert (missing fs "no2" m = false) as Hmiss.
  { unfold missing. apply bool_decide_eq_false_2. by rewrite Hf. }
  destruct (run_tab1_raises fs inp memo rows meta m e
              (fun pg => pg =
                 [([Tab 1], Subheader [Lit "Visualizacion Espacial - "; Lit m]);
                  ([Tab 1],
                   Radio "Modo de visualizacion:"
                     ["Comparacion lado a lado"; "Superposicion con control";
                      "Vista individual"]);
                  ([Tab 1], Markdown [Lit "---"]);
                  ([Tab 1; Col 1],
                   Markdown [Lit "#### NO2 - Dioxido de Nitrogeno"])])
              Hloads Hsel)
    as (s & cur & deltas & pg & Hrun & -> & Hd & Hpage).
  { intros s. unfold tab1, exists_ at 1.
    change (normpath image_dir) with "monthly_images".
    rewrite bool_decide_eq_true_2 by done. cbn [negb].
    unfold map_view. rewrite Hmode.
    mstep. mstep. mstep. mstep.
    rewrite (show_image_unreadable fs _ "no2" m _ e) by done.
    cbv beta iota.
    eexists. split; [|reflexivity]. by rewrite !emitted_app. }
  exists e, s. split; [exact Hrun|]. split; [exact He|].
  rewrite Hpage. clear Hpage Hrun.
  rewrite !pictures_app, !errors_app, !in_tab_app.
  destruct Hd as [->|(d1 & d2 & ->)]; repeat split; reflexivity.
Qed.





End RerunFacts.

Lemma unreadable_raster_aborts_run_witness :
  exists s,
    Demo.run (<[image_path "no2" "2024-03" := JsonFile Demo.metadata]> Demo.fs)
      Demo.inputs None = (Raise UnidentifiedImageError, s) /\
    in_tab 2 (page s) = [].
Proof.
  destruct (unreadable_raster_aborts_run Demo.resize
              Pearson.corr_binary64 Polyfit.polyfit_binary64
              (<[image_path "no2" "2024-03" := JsonFile Demo.metadata]> Demo.fs)
              Demo.inputs None Demo.rows Demo.metadata "2024-03"
              (JsonFile Demo.metadata))
    as (e & s & Hrun & He & _ & _ & Htab & _).
  - right. split; reflexivity.
  - reflexivity.
  - eexists. reflexivity.
  - reflexivity.
  - reflexivity.
  - discriminate.
  - exists s. split; [|exact Htab].
    assert (inl e = (inl UnidentifiedImageError : Exn + PIL.Image)) as Heq
      by (rewrite <- He; reflexivity).
    injection Heq as ->. exact Hrun.
Defined.

